(** * User registry: validation, connection lifecycle, repository, active set

    A shallow embedding of the hardened variant of the service
    ([app_latest/routes.py], [app_latest/database.py],
    [app_latest/services.py], [app_latest/__init__.py]) and the
    properties of its persistence and validation core.

    Python values are an inductive type, Python [str] is a list of code
    points, Python [int] is [Z].  Functions that touch the SQLite store
    or the logger thread an explicit [world]; a Python call that may raise
    returns a [result]. *)

From Stdlib Require Import List ZArith NArith Lia Bool String Ascii.
From Stdlib Require Import DecimalString.
Import ListNotations.

Set Implicit Arguments.

(* ================================================================== *)
(** ** Python values *)
(* ================================================================== *)

Module Py.

(** A Python [str]: the sequence of its code points. *)
Definition pystr := list N.

(** A string literal of the source (the literals are all ASCII). *)
Definition lit (s : string) : pystr := map N_of_ascii (list_ascii_of_string s).

(** [str(n)] for an [int]. *)
Definition str_of_int (z : Z) : pystr := lit (NilZero.string_of_int (Z.to_int z)).

#[local] Set Warnings "-register-all".

(** The values a decoded JSON body (or any caller) can hand to the core.
    Floating-point numbers are left out. *)
Inductive pyval : Type :=
| PNone
| PBool (b : bool)
| PInt (z : Z)
| PStr (s : pystr)
| PList (l : list pyval)
| PDict (d : list (pystr * pyval)).

(** Truth value testing: [bool(v)].  [not v] is [negb (truthy v)]. *)
Definition truthy (v : pyval) : bool :=
  match v with
  | PNone => false
  | PBool b => b
  | PInt z => negb (z =? 0)%Z
  | PStr s => match s with [] => false | _ => true end
  | PList l => match l with [] => false | _ => true end
  | PDict d => match d with [] => false | _ => true end
  end.

(** [isinstance(v, str)] *)
Definition isinstance_str (v : pyval) : bool :=
  match v with PStr _ => true | _ => false end.

(** [isinstance(v, int)]: [bool] is a subclass of [int]. *)
Definition isinstance_int (v : pyval) : bool :=
  match v with PInt _ | PBool _ => true | _ => false end.

(** The integer an [int] instance denotes ([True] is 1, [False] is 0). *)
Definition int_value (v : pyval) : Z :=
  match v with
  | PInt z => z
  | PBool true => 1
  | _ => 0
  end.

(** The text of a [str] instance. *)
Definition str_value (v : pyval) : pystr :=
  match v with
  | PStr s => s
  | _ => []
  end.

(** [str(v)] for an [int] instance, as an f-string formats it. *)
Definition format_int (v : pyval) : pystr :=
  match v with
  | PBool true => lit "True"
  | PBool false => lit "False"
  | _ => str_of_int (int_value v)
  end.

(** [c.isspace()] for a single character: the white space [str.strip()]
    removes when called without argument. *)
Definition is_whitespace (c : N) : bool :=
  (((9 <=? c) && (c <=? 13)) || ((28 <=? c) && (c <=? 32))
   || (c =? 133) || (c =? 160) || (c =? 5760)
   || ((8192 <=? c) && (c <=? 8202))
   || (c =? 8232) || (c =? 8233) || (c =? 8239) || (c =? 8287)
   || (c =? 12288))%N.

Fixpoint lstrip (s : pystr) : pystr :=
  match s with
  | [] => []
  | c :: s' => if is_whitespace c then lstrip s' else s
  end.

Definition rstrip (s : pystr) : pystr := rev (lstrip (rev s)).

(** [s.strip()] *)
Definition strip (s : pystr) : pystr := rstrip (lstrip s).

(** [len(s)] *)
Definition len (s : pystr) : Z := Z.of_nat (List.length s).

(** [s[:n]] for a non-negative literal [n]. *)
Definition prefix (n : nat) (s : pystr) : pystr := firstn n s.

(** Exceptions: the class and [str(e)]. *)
Inductive exn_class : Type :=
| SqliteError          (* sqlite3.Error *)
| SqliteOperationalError (* sqlite3.OperationalError *)
| SqliteIntegrityError (* sqlite3.IntegrityError *)
| SqliteDataError      (* sqlite3.DataError *)
| ValueError
| OtherException       (* any other subclass of Exception *)
| KeyboardInterrupt.   (* a BaseException that is not an Exception *)

Record exn : Type := Exn { exn_cls : exn_class; exn_msg : pystr }.

(** [isinstance(e, sqlite3.Error)] *)
Definition is_sqlite_error (e : exn) : bool :=
  match exn_cls e with
  | SqliteError | SqliteOperationalError | SqliteIntegrityError
  | SqliteDataError => true
  | _ => false
  end.

(** [isinstance(e, sqlite3.IntegrityError)] *)
Definition is_integrity_error (e : exn) : bool :=
  match exn_cls e with SqliteIntegrityError => true | _ => false end.

(** [isinstance(e, Exception)] *)
Definition is_exception (e : exn) : bool :=
  match exn_cls e with KeyboardInterrupt => false | _ => true end.

(** The result of a call: it returns a value or raises. *)
Inductive result (A : Type) : Type :=
| Ok (a : A)
| Err (e : exn).
Arguments Ok {A} a.
Arguments Err {A} e.

(** How control leaves the body of a [with] statement: it falls off the
    end, executes a [return], or raises. *)
Inductive outcome (A : Type) : Type :=
| Fallthrough
| Returned (a : A)
| Raised (e : exn).
Arguments Fallthrough {A}.
Arguments Returned {A} a.
Arguments Raised {A} e.

End Py.
Import Py.

(* ================================================================== *)
(** ** [routes.py]: validation *)
(* ================================================================== *)

Module Routes.

(** [validate_name(name, max_length)] returns [(is_valid, error_message)]. *)
Definition validate_name (name : pyval) (max_length : Z) : bool * option pystr :=
  if negb (truthy name) then
    (false, Some (lit "Name is required"))
  else
    match name with
    | PStr s =>
        let name := strip s in
        if negb (truthy (PStr name)) then
          (false, Some (lit "Name cannot be empty"))
        else if (len name >? max_length)%Z then
          (false, Some (lit "Name must be no longer than " ++ str_of_int max_length
                          ++ lit " characters"))
        else if existsb (fun c => (c <? 32)%N && negb (existsb (N.eqb c) [9; 10; 13]%N)) name then
          (false, Some (lit "Name contains invalid characters"))
        else
          (true, None)
    | _ => (false, Some (lit "Name must be a string"))
    end.

End Routes.

(* ================================================================== *)
(** ** The SQLite store *)
(* ================================================================== *)

(** The store behind [sqlite3].  A database file is a list of named
    tables.  A connection sees the file and, once a statement that changes
    rows has opened a transaction, its own pending copy; [commit] makes
    the pending copy the file's content, [rollback] and [close] drop it.
    A statement that changes the schema while no transaction is open is
    durable at once.  Integers bound to a statement are signed 64-bit and
    text is bound as UTF-8, as [sqlite3] binds them.  The [created_at]
    column (filled by the store's clock, read by no operation) is left
    out. *)
Module Sqlite.

Record row : Type := Row {
  row_id : Z;
  row_name : pystr;
  row_password_hash : option pystr
}.

(** A table with an [INTEGER PRIMARY KEY AUTOINCREMENT] column: its rows
    and the largest row id ever handed out ([sqlite_sequence]). *)
Record table : Type := Table {
  rows : list row;
  seq : Z
}.

Definition database := list (string * table).

Fixpoint find_table (name : string) (db : database) : option table :=
  match db with
  | [] => None
  | (n, t) :: db' => if String.eqb n name then Some t else find_table name db'
  end.

Fixpoint set_table (name : string) (t : table) (db : database) : database :=
  match db with
  | [] => []
  | (n, t0) :: db' =>
      if String.eqb n name then (n, t) :: db' else (n, t0) :: set_table name t db'
  end.

(** How many tables of the file carry the name. *)
Definition count_tables (name : string) (db : database) : nat :=
  List.length (filter (fun nt => String.eqb (fst nt) name) db).

Definition max_row_id (rs : list row) : Z :=
  fold_right (fun r m => Z.max (row_id r) m) 0%Z rs.

(** The bounds of an SQLite [INTEGER]. *)
Definition max_int : Z := 9223372036854775807.
Definition min_int : Z := (-9223372036854775808)%Z.

(** The id [AUTOINCREMENT] gives the next inserted row, while one is
    left. *)
Definition next_row_id (t : table) : Z :=
  (Z.max (seq t) (max_row_id (rows t)) + 1)%Z.

(** The table has held the largest possible row id: [AUTOINCREMENT]
    hands out no further one. *)
Definition id_space_full (t : table) : bool :=
  (max_int <=? Z.max (seq t) (max_row_id (rows t)))%Z.

(** The statements the service issues; the bound parameters are data. *)
Inductive stmt : Type :=
| CreateUsersIfNotExists            (* CREATE TABLE IF NOT EXISTS users (...) *)
| InsertUser (name : pystr)         (* INSERT INTO users (name) VALUES (?) *)
| SelectUserById (id : Z)           (* SELECT id, name FROM users WHERE id = ? *)
| SelectUserByName (name : pystr).  (* SELECT id, name FROM users WHERE name = ? *)

(** What a cursor holds after [execute]: [lastrowid] and the result rows
    [(id, name)] still to fetch. *)
Record cursor : Type := Cursor {
  lastrowid : Z;
  pending_rows : list (Z * pystr)
}.

Definition fetchone (c : cursor) : option (Z * pystr) := hd_error (pending_rows c).

Fixpoint pystr_eqb (a b : pystr) : bool :=
  match a, b with
  | [], [] => true
  | x :: a', y :: b' => (x =? y)%N && pystr_eqb a' b'
  | _, _ => false
  end.

Definition select (p : row -> bool) (t : table) : list (Z * pystr) :=
  map (fun r => (row_id r, row_name r)) (filter p (rows t)).

Definition no_such_table : exn :=
  Exn SqliteOperationalError (lit "no such table: users").

Definition database_full : exn :=
  Exn SqliteOperationalError (lit "database or disk is full").

(** *** Binding parameters *)

(** A Python [int] binds when it fits a signed 64-bit integer; otherwise
    [sqlite3] raises [OverflowError], which is no [sqlite3.Error]. *)
Definition bindable_int (z : Z) : bool := ((min_int <=? z) && (z <=? max_int))%Z.

Definition overflow_error : exn :=
  Exn OtherException (lit "Python int too large to convert to SQLite INTEGER").

(** A Python [str] is bound as its UTF-8 encoding.  It encodes when it
    holds no surrogate code point; otherwise the encoder raises
    [UnicodeEncodeError], which is a [ValueError]. *)
Definition is_surrogate (c : N) : bool := ((55296 <=? c) && (c <=? 57343))%N.

(** The bytes a code point takes in UTF-8. *)
Definition utf8_size (c : N) : Z :=
  if (c <? 128)%N then 1
  else if (c <? 2048)%N then 2
  else if (c <? 65536)%N then 3
  else 4.

Definition utf8_length (s : pystr) : Z :=
  fold_right (fun c n => (utf8_size c + n)%Z) 0%Z s.

(** The largest C [int], and SQLite's default limit on the bytes of a
    string and of a row. *)
Definition INT_MAX : Z := 2147483647.
Definition SQLITE_MAX_LENGTH : Z := 1000000000.

(** The position of the first surrogate of [s]. *)
Fixpoint surrogate_start (s : pystr) : nat :=
  match s with
  | [] => O
  | c :: s' => if is_surrogate c then O else S (surrogate_start s')
  end.

(** How many surrogates [s] begins with. *)
Fixpoint surrogate_run (s : pystr) : nat :=
  match s with
  | [] => O
  | c :: s' => if is_surrogate c then S (surrogate_run s') else O
  end.

Definition hex_digit (n : N) : N :=
  (if n <? 10 then 48 + n else 87 + n)%N.

(** The four lower-case hexadecimal digits of a code point below 65536. *)
Definition hex4 (c : N) : pystr :=
  [hex_digit (c / 4096 mod 16); hex_digit (c / 256 mod 16);
   hex_digit (c / 16 mod 16); hex_digit (c mod 16)]%N.

Definition backslash_u : pystr := [92; 117]%N.

(** [str(e)] of the [UnicodeEncodeError] the UTF-8 encoder raises on [s]:
    it names the first run of surrogates. *)
Definition encode_error_message (s : pystr) : pystr :=
  let start := surrogate_start s in
  let run := surrogate_run (skipn start s) in
  if (run <=? 1)%nat then
    lit "'utf-8' codec can't encode character '" ++ backslash_u
      ++ hex4 (nth start s 0%N) ++ lit "' in position "
      ++ str_of_int (Z.of_nat start) ++ lit ": surrogates not allowed"
  else
    lit "'utf-8' codec can't encode characters in position "
      ++ str_of_int (Z.of_nat start) ++ lit "-"
      ++ str_of_int (Z.of_nat (start + run - 1)) ++ lit ": surrogates not allowed".

Definition encode_error (s : pystr) : exn := Exn ValueError (encode_error_message s).

(** An encoding longer than [INT_MAX] bytes is turned down by [sqlite3]
    with [OverflowError], a shorter one longer than [SQLITE_MAX_LENGTH] by
    SQLite itself with [sqlite3.DataError]. *)
Definition string_overflow_error : exn :=
  Exn OtherException (lit "string longer than INT_MAX bytes").

Definition too_big : exn := Exn SqliteDataError (lit "string or blob too big").

(** What binding a [str] parameter raises, if anything. *)
Definition bind_str (s : pystr) : option exn :=
  if existsb is_surrogate s then Some (encode_error s)
  else if (INT_MAX <? utf8_length s)%Z then Some string_overflow_error
  else if (SQLITE_MAX_LENGTH <? utf8_length s)%Z then Some too_big
  else None.

Definition bindable_str (s : pystr) : bool :=
  match bind_str s with
  | None => true
  | Some _ => false
  end.

(** The bytes of a variable-length integer of the record format. *)
Definition varint_length (v : Z) : Z :=
  if (v <? 128)%Z then 1
  else if (v <? 16384)%Z then 2
  else if (v <? 2097152)%Z then 3
  else if (v <? 268435456)%Z then 4
  else if (v <? 34359738368)%Z then 5
  else if (v <? 4398046511104)%Z then 6
  else if (v <? 562949953421312)%Z then 7
  else if (v <? 72057594037927936)%Z then 8
  else 9.

(** The bytes of the record the [INSERT] builds for a row of the table
    [init_db] creates.  Its header holds its own length, the [NULL] that
    stands for the id (the id is the row id), the serial type of the
    name, the [NULL] of [password_hash] and the serial type of
    [created_at]; its body holds the bytes of the name and the 19 bytes
    of the timestamp [created_at] defaults to, a column the rows of this
    model leave out.  SQLite refuses a record longer than
    [SQLITE_MAX_LENGTH]. *)
Definition record_size (name : pystr) : Z :=
  (4 + varint_length (2 * utf8_length name + 13) + utf8_length name + 19)%Z.

(** The table of the first variant has no [created_at]: its records are
    20 bytes shorter, so a name that fits here fits there. *)
Definition row_fits (name : pystr) : bool :=
  (record_size name <=? SQLITE_MAX_LENGTH)%Z.

(** *** Connections *)

(** An open connection: what it has made durable in its file, and the
    pending copy of its open transaction, if any. *)
Record connection : Type := Connection {
  durable : database;
  pending : option database
}.

(** The database the connection's statements see. *)
Definition current (c : connection) : database :=
  match pending c with
  | Some db => db
  | None => durable c
  end.

(** The implicit [BEGIN] before a statement that changes rows. *)
Definition begin (c : connection) : connection :=
  Connection (durable c) (Some (current c)).

Definition create_users (db : database) : database :=
  match find_table "users" db with
  | Some _ => db
  | None => db ++ [("users"%string, Table [] 0)]
  end.

(** [conn.execute(sql, params)] on a connection none of whose statements
    has failed: the statement is prepared (the table must exist), a
    transaction is opened before an [INSERT], the parameters are bound,
    the statement runs.  An [INSERT] that finds no id left fails with
    [SQLITE_FULL], which rolls the open transaction back; one whose record
    is too long fails alone. *)
Definition execute (s : stmt) (c : connection) : result cursor * connection :=
  match s with
  | CreateUsersIfNotExists =>
      (Ok (Cursor 0 []),
       match pending c with
       | Some db => Connection (durable c) (Some (create_users db))
       | None => Connection (create_users (durable c)) None
       end)
  | InsertUser name =>
      match find_table "users" (current c) with
      | None => (Err no_such_table, c)
      | Some t =>
          let c1 := begin c in
          match bind_str name with
          | Some e => (Err e, c1)
          | None =>
              if id_space_full t then (Err database_full, Connection (durable c) None)
              else if negb (row_fits name) then (Err too_big, c1)
              else
                let i := next_row_id t in
                (Ok (Cursor i []),
                 Connection (durable c)
                   (Some (set_table "users" (Table (rows t ++ [Row i name None]) i)
                            (current c))))
          end
      end
  | SelectUserById id =>
      match find_table "users" (current c) with
      | None => (Err no_such_table, c)
      | Some t =>
          if negb (bindable_int id) then (Err overflow_error, c)
          else (Ok (Cursor 0 (select (fun r => (row_id r =? id)%Z) t)), c)
      end
  | SelectUserByName name =>
      match find_table "users" (current c) with
      | None => (Err no_such_table, c)
      | Some t =>
          match bind_str name with
          | Some e => (Err e, c)
          | None => (Ok (Cursor 0 (select (fun r => pystr_eqb (row_name r) name) t)), c)
          end
      end
  end.

Inductive level : Type := INFO | WARNING | ERROR.

(** What the process does to the outside, in order: the life cycle of
    its connections and the records it logs. *)
Inductive event : Type :=
| EvConnect (path : string)
| EvCommit (path : string)
| EvRollback (path : string)
| EvClose (path : string)
| EvLog (lvl : level) (msg : pystr).

(** The world: the content of every database file ([None] for a path
    that cannot be opened), the number of open connection handles and the
    trace of events. *)
Record world : Type := World {
  files : string -> option database;
  open_handles : nat;
  trace : list event
}.

Definition emit (evs : list event) (w : world) : world :=
  World (files w) (open_handles w) (trace w ++ evs).

Definition write_file (path : string) (db : database) (w : world) : world :=
  World (fun p => if String.eqb p path then Some db else files w p)
        (open_handles w) (trace w).

Definition cannot_open : exn :=
  Exn SqliteOperationalError (lit "unable to open database file").

(** [sqlite3.connect(path)] *)
Definition connect (path : string) (w : world) : result connection * world :=
  match files w path with
  | None => (Err cannot_open, w)
  | Some db =>
      (Ok (Connection db None),
       emit [EvConnect path] (World (files w) (S (open_handles w)) (trace w)))
  end.

(** [conn.commit()] on the connection to [path]: the open transaction,
    if any, becomes durable.  What a connection has made durable is
    written to the file here, at [rollback] and at [close]; nothing reads
    the file in between. *)
Definition commit (path : string) (c : connection) (w : world) : connection * world :=
  (Connection (current c) None,
   emit [EvCommit path] (write_file path (current c) w)).

(** [conn.rollback()]: the open transaction is dropped. *)
Definition rollback (path : string) (c : connection) (w : world) : connection * world :=
  (Connection (durable c) None,
   emit [EvRollback path] (write_file path (durable c) w)).

(** [conn.close()]: what was not committed is lost. *)
Definition close (path : string) (c : connection) (w : world) : world :=
  emit [EvClose path]
    (write_file path (durable c)
       (World (files w) (pred (open_handles w)) (trace w))).

End Sqlite.
Import Sqlite.

(* ================================================================== *)
(** ** [database.py]: connection manager and schema initializer *)
(* ================================================================== *)

Module Database.

(** The body of a [with get_db_connection(path) as conn:] statement: it
    acts on the connection, may log, and leaves by one of the three ways
    of [outcome]. *)
Definition block (A : Type) : Type := connection -> outcome A * connection * list event.

(** [with get_db_connection(database_path) as conn: body].  The three
    handlers of the generator are the three branches on a raised error;
    the [finally] clause is the [close] that ends every branch on which
    [conn] is set. *)
Definition get_db_connection {A : Type} (database_path : string) (body : block A)
    (w : world) : outcome A * world :=
  match connect database_path w with
  | (Err e, w0) =>
      (* conn is None: nothing to roll back, nothing to close *)
      (Raised e, emit [EvLog ERROR (lit "Database error: " ++ exn_msg e)] w0)
  | (Ok conn, w0) =>
      let '(o, conn1, evs) := body conn in
      let w1 := emit evs w0 in
      match o with
      | Raised e =>
          if is_sqlite_error e then
            let (conn2, w2) := rollback database_path conn1 w1 in
            let w3 := emit [EvLog ERROR (lit "Database error: " ++ exn_msg e)] w2 in
            (Raised e, close database_path conn2 w3)
          else if is_exception e then
            let (conn2, w2) := rollback database_path conn1 w1 in
            let w3 := emit [EvLog ERROR (lit "Unexpected database error: " ++ exn_msg e)] w2 in
            (Raised e, close database_path conn2 w3)
          else
            (Raised e, close database_path conn1 w1)
      | _ =>
          let (conn2, w2) := commit database_path conn1 w1 in
          (o, close database_path conn2 w2)
      end
  end.

(** [init_db(database_path)] *)
Definition init_db (database_path : string) (w : world) : result pyval * world :=
  let body : block pyval := fun conn =>
    match execute CreateUsersIfNotExists conn with
    | (Err e, conn') => (Raised e, conn', [])
    | (Ok _, conn') =>
        (Fallthrough, conn',
         [EvLog INFO (lit "Database initialized at " ++ lit database_path)])
    end in
  match get_db_connection database_path body w with
  | (Raised e, w') =>
      if is_sqlite_error e then
        (Err e, emit [EvLog ERROR (lit "Failed to initialize database: " ++ exn_msg e)] w')
      else (Err e, w')
  | (Returned v, w') => (Ok v, w')
  | (Fallthrough, w') => (Ok PNone, w')
  end.

End Database.
Import Database.

(* ================================================================== *)
(** ** [services.py]: user repository and active-set tracker *)
(* ================================================================== *)

Module Services.

(** The dictionary [{"id": id, "name": name}]. *)
Definition user_dict (id : Z) (name : pystr) : pyval :=
  PDict [(lit "id", PInt id); (lit "name", PStr name)].

(** [add_user(name, database_path)] *)
Definition add_user (name : pyval) (database_path : string) (w : world)
    : result pyval * world :=
  if negb (truthy name) || negb (isinstance_str name) then
    (Err (Exn ValueError (lit "Name must be a non-empty string")), w)
  else
    let body : block pyval := fun conn =>
      match execute (InsertUser (strip (str_value name))) conn with
      | (Err e, conn') => (Raised e, conn', [])
      | (Ok cur, conn') =>
          let user_id := lastrowid cur in
          (Returned (PInt user_id), conn',
           [EvLog INFO (lit "User created with ID: " ++ str_of_int user_id
                          ++ lit ", name: " ++ prefix 20 (str_value name))])
      end in
    match get_db_connection database_path body w with
    | (Raised e, w') =>
        if is_integrity_error e then
          (Err e, emit [EvLog WARNING
                          (lit "Failed to create user (integrity error): " ++ exn_msg e)] w')
        else if is_exception e then
          (Err e, emit [EvLog ERROR (lit "Failed to create user: " ++ exn_msg e)] w')
        else (Err e, w')
    | (Returned v, w') => (Ok v, w')
    | (Fallthrough, w') => (Ok PNone, w')
    end.

(** The body shared by the two look-ups: fetch one row, answer with its
    dictionary or [None]. *)
Definition lookup_block (s : stmt) : block pyval := fun conn =>
  match execute s conn with
  | (Err e, conn') => (Raised e, conn', [])
  | (Ok cur, conn') =>
      match fetchone cur with
      | Some (id, name) => (Returned (user_dict id name), conn', [])
      | None => (Returned PNone, conn', [])
      end
  end.

(** [get_user(user_id, database_path)] *)
Definition get_user (user_id : pyval) (database_path : string) (w : world)
    : result pyval * world :=
  if negb (isinstance_int user_id) || (int_value user_id <=? 0)%Z then
    (Ok PNone, w)
  else
    match get_db_connection database_path
            (lookup_block (SelectUserById (int_value user_id))) w with
    | (Raised e, w') =>
        if is_sqlite_error e then
          (Err e, emit [EvLog ERROR (lit "Failed to get user " ++ format_int user_id
                                       ++ lit ": " ++ exn_msg e)] w')
        else (Err e, w')
    | (Returned v, w') => (Ok v, w')
    | (Fallthrough, w') => (Ok PNone, w')
    end.

(** [get_user_by_name(name, database_path)] *)
Definition get_user_by_name (name : pyval) (database_path : string) (w : world)
    : result pyval * world :=
  if negb (truthy name) || negb (isinstance_str name) then
    (Ok PNone, w)
  else
    match get_db_connection database_path
            (lookup_block (SelectUserByName (strip (str_value name)))) w with
    | (Raised e, w') =>
        if is_sqlite_error e then
          (Err e, emit [EvLog ERROR (lit "Failed to get user by name '" ++ str_value name
                                       ++ lit "': " ++ exn_msg e)] w')
        else (Err e, w')
    | (Returned v, w') => (Ok v, w')
    | (Fallthrough, w') => (Ok PNone, w')
    end.

(** *** The active set

    [_active_users] is one list object of the process, and
    [get_active_users] hands out another one.  The memory of the process
    is a heap of list objects addressed by their position; a reference is
    such a position. *)

Definition heap := list (list Z).
Definition ref := nat.

(** The content of the list object at [r]. *)
Definition deref (h : heap) (r : ref) : list Z := nth r h [].

(** Replace the content of the list object at [r]. *)
Fixpoint assign (h : heap) (r : ref) (l : list Z) : heap :=
  match h, r with
  | [], _ => []
  | _ :: h', O => l :: h'
  | x :: h', S r' => x :: assign h' r' l
  end.

(** A new list object. *)
Definition alloc (h : heap) (l : list Z) : ref * heap := (List.length h, h ++ [l]).

(** [x in l] *)
Definition contains (x : Z) (l : list Z) : bool := existsb (Z.eqb x) l.

(** [l.append(x)] on the object at [r]. *)
Definition list_append (r : ref) (x : Z) (h : heap) : heap :=
  assign h r (deref h r ++ [x]).

(** [l.pop(0)] on the object at [r], which the caller knows is not empty. *)
Definition list_pop0 (r : ref) (h : heap) : heap :=
  assign h r (tl (deref h r)).

(** [l.copy()] of the object at [r]. *)
Definition list_copy (r : ref) (h : heap) : ref * heap := alloc h (deref h r).

(** The module-level list [_active_users = []], the first object of the
    process. *)
Definition _active_users : ref := 0%nat.
Definition initial_heap : heap := [[]].

(** [set_user_active(user_id)]; the lock makes the body one step. *)
Definition set_user_active (user_id : Z) (h : heap) : heap :=
  let h1 :=
    if negb (contains user_id (deref h _active_users))
    then list_append _active_users user_id h
    else h in
  if (5 <? List.length (deref h1 _active_users))%nat
  then list_pop0 _active_users h1
  else h1.

(** [get_active_users()] returns a reference to a new list object. *)
Definition get_active_users (h : heap) : ref * heap :=
  list_copy _active_users h.

(** A run of [set_user_active] calls, in the order the lock serializes
    them. *)
Definition mark_all (ids : list Z) (h : heap) : heap :=
  fold_left (fun h id => set_user_active id h) ids h.

End Services.
Import Services.

(* ================================================================== *)
(** ** [__init__.py]: the application factory *)
(* ================================================================== *)

Module App.

(** The dictionary [get_config()] returns, read from the environment. *)
Record config : Type := Config {
  DATABASE_PATH : string;
  DEBUG : bool;
  MAX_NAME_LENGTH : Z;
  INIT_DB_ON_START : bool;
  LOG_LEVEL : string
}.

(** The Flask application object: its configuration and the blueprints
    registered on it. *)
Record flask : Type := Flask {
  app_config : option config;
  blueprints : list string
}.

Definition register_blueprint (name : string) (app : flask) : flask :=
  Flask (app_config app) (blueprints app ++ [name]).

(** [from app_latest.routes import api_bp] runs [routes.py], whose
    [validate_name] is annotated with [Optional], a name the module never
    imports: where annotations are evaluated when the function is defined
    (every interpreter before 3.14) the import raises [NameError]. *)
Definition import_routes : result string :=
  Err (Exn OtherException (lit "name 'Optional' is not defined")).

(** [create_app()], with the dictionary [get_config()] returns as its
    argument. *)
Definition create_app (cfg : config) (w : world) : result flask * world :=
  let app := Flask None [] in
  let app := Flask (Some cfg) (blueprints app) in
  let (initialized, w1) :=
    if INIT_DB_ON_START cfg then
      match init_db (DATABASE_PATH cfg) w with
      | (Err e, w') =>
          if is_exception e then
            let w'' := emit [EvLog ERROR (lit "Failed to initialize database: "
                                            ++ exn_msg e)] w' in
            if negb (DEBUG cfg) then (Err e, w'') else (Ok tt, w'')
          else (Err e, w')
      | (Ok _, w') => (Ok tt, w')
      end
    else (Ok tt, w) in
  match initialized with
  | Err e => (Err e, w1)
  | Ok _ =>
      match import_routes with
      | Err e => (Err e, w1)
      | Ok api_bp => (Ok (register_blueprint api_bp app), w1)
      end
  end.

End App.
Import App.

(* ================================================================== *)
(** ** The validation contract in the specification's words *)
(* ================================================================== *)

Module Spec.

Inductive ValidationError : Type :=
| MissingValue
| WrongType
| EmptyAfterTrim
| TooLong
| InvalidCharacters.

(** [Result<trimmedName, ValidationError>] *)
Inductive validation : Type :=
| Valid (trimmedName : pystr)
| Invalid (e : ValidationError).

(** "absent, null, or empty before trimming": no value, or a value with
    nothing in it. *)
Definition missing (raw : pyval) : bool :=
  match raw with
  | PNone | PStr [] | PList [] | PDict [] => true
  | _ => false
  end.

(** "a codepoint below 32 other than tab (9), newline (10),
    carriage-return (13)" *)
Definition forbidden (c : N) : Prop :=
  (c < 32)%N /\ c <> 9%N /\ c <> 10%N /\ c <> 13%N.

Definition forbiddenb (c : N) : bool :=
  ((c <? 32) && negb (c =? 9) && negb (c =? 10) && negb (c =? 13))%N.

(** The five rules, in order, first failure wins. *)
Definition validateName (raw : pyval) (maxLength : Z) : validation :=
  if missing raw then Invalid MissingValue
  else
    match raw with
    | PStr s =>
        match strip s with
        | [] => Invalid EmptyAfterTrim
        | t =>
            if (maxLength <? len t)%Z then Invalid TooLong
            else if existsb forbiddenb t then Invalid InvalidCharacters
            else Valid t
        end
    | _ => Invalid WrongType
    end.

(** Whether [s] begins with [p]. *)
Fixpoint starts_with (p s : pystr) : bool :=
  match p, s with
  | [], _ => true
  | a :: p', b :: s' => (a =? b)%N && starts_with p' s'
  | _ :: _, [] => false
  end.

(** The kind of failure an error message of [validate_name] stands for. *)
Definition kind_of_message (m : pystr) : option ValidationError :=
  if pystr_eqb m (lit "Name is required") then Some MissingValue
  else if pystr_eqb m (lit "Name must be a string") then Some WrongType
  else if pystr_eqb m (lit "Name cannot be empty") then Some EmptyAfterTrim
  else if starts_with (lit "Name must be no longer than ") m then Some TooLong
  else if pystr_eqb m (lit "Name contains invalid characters") then Some InvalidCharacters
  else None.

(** What a pair [(is_valid, error_message)] says: accepted ([None]) or
    rejected for a reason. *)
Definition verdict (r : bool * option pystr) : option (option ValidationError) :=
  match r with
  | (true, None) => Some None
  | (false, Some m) => option_map Some (kind_of_message m)
  | _ => None
  end.

(** The same for a [validation]. *)
Definition verdict_of (v : validation) : option ValidationError :=
  match v with
  | Valid _ => None
  | Invalid e => Some e
  end.

(** The last [k] elements of a list. *)
Definition lastn {A : Type} (k : nat) (l : list A) : list A :=
  skipn (List.length l - k) l.

(** The ids a run of [set_user_active] calls really appended to
    [_active_users], in the order of the calls. *)
Fixpoint insert_log (ids : list Z) (h : heap) : list Z :=
  match ids with
  | [] => []
  | id :: rest =>
      (if contains id (deref h _active_users) then [] else [id])
        ++ insert_log rest (set_user_active id h)
  end.

End Spec.
Import Spec.

(* ================================================================== *)
(** ** Sample data *)
(* ================================================================== *)

Module Sample.

(** The name of the injection test. *)
Definition drop_table : pystr := lit "'; DROP TABLE users; --".

(** A store file with the schema and one user. *)
Definition one_user : database :=
  [("users"%string, Table [Row 1 (lit "Alice") None] 1)].

(** A world where ["secure_app.db"] holds [db] and no other path can be
    opened. *)
Definition world_with (db : database) : world :=
  World (fun p => if String.eqb p "secure_app.db" then Some db else None) 0 [].



(** A caller's block that writes a row and returns early. *)
Definition write_then_return : block pyval := fun conn =>
  match execute (InsertUser (lit "Bob")) conn with
  | (_, conn') => (Returned PNone, conn', [])
  end.

Definition lenient : config := Config "missing/secure_app.db" true 255 true "INFO".
Definition strict : config := Config "missing/secure_app.db" false 255 true "INFO".

End Sample.

(* ================================================================== *)
(** ** [routes.py]: the endpoints *)
(* ================================================================== *)

Module Endpoints.

(** What the handlers read of Flask's [request]: [request.is_json],
    [request.content_length] and what [request.get_json(force=False)]
    returns or raises. *)
Record request : Type := Request {
  is_json : bool;
  content_length : option Z;
  get_json : result pyval
}.

(** What a handler returns: the dictionary handed to [jsonify] and the
    status code. *)
Definition response : Type := (pyval * Z)%type.

Definition error_body (msg : pystr) : pyval := PDict [(lit "error", PStr msg)].

(** [d[k]] on the items of a dictionary. *)
Fixpoint dict_get (k : pystr) (d : list (pystr * pyval)) : option pyval :=
  match d with
  | [] => None
  | (k', v) :: d' => if pystr_eqb k' k then Some v else dict_get k d'
  end.

(** [p in s] for two strings. *)
Fixpoint is_substring (p s : pystr) : bool :=
  starts_with p s
  || match s with
     | [] => false
     | _ :: s' => is_substring p s'
     end.

(** A [TypeError] or [KeyError]; the text is CPython's. *)
Definition type_error (msg : string) : exn := Exn OtherException (lit msg).

(** ['name' in data] *)
Definition name_in (data : pyval) : result bool :=
  match data with
  | PDict d =>
      Ok match dict_get (lit "name") d with Some _ => true | None => false end
  | PList l =>
      Ok (existsb (fun v => isinstance_str v && pystr_eqb (str_value v) (lit "name")) l)
  | PStr s => Ok (is_substring (lit "name") s)
  | PNone => Err (type_error "argument of type 'NoneType' is not iterable")
  | PBool _ => Err (type_error "argument of type 'bool' is not iterable")
  | PInt _ => Err (type_error "argument of type 'int' is not iterable")
  end.

(** [data['name']] *)
Definition getitem_name (data : pyval) : result pyval :=
  match data with
  | PDict d =>
      match dict_get (lit "name") d with
      | Some v => Ok v
      | None => Err (type_error "'name'")
      end
  | PList _ => Err (type_error "list indices must be integers or slices, not str")
  | PStr _ => Err (type_error "string indices must be integers, not 'str'")
  | PNone => Err (type_error "'NoneType' object is not subscriptable")
  | PBool _ => Err (type_error "'bool' object is not subscriptable")
  | PInt _ => Err (type_error "'int' object is not subscriptable")
  end.

(** [isinstance(e, ValueError)] *)
Definition is_value_error (e : exn) : bool :=
  match exn_cls e with ValueError => true | _ => false end.

(** [str(v)] as an f-string formats the id [add_user] returned. *)
Definition format_value (v : pyval) : pystr :=
  match v with
  | PNone => lit "None"
  | PStr s => s
  | _ => format_int v
  end.

(** [create_user()], the handler of [POST /users]; [cfg] is
    [current_app.config]. *)
Definition create_user (cfg : config) (req : request) (w : world)
    : result response * world :=
  if negb (is_json req) then
    (Ok (error_body (lit "Content-Type must be application/json"), 400%Z), w)
  else if match content_length req with
          | Some n => negb (n =? 0)%Z && (n >? 1024)%Z
          | None => false
          end then
    (Ok (error_body (lit "Request body too large"), 413%Z), w)
  else
    match get_json req with
    | Err e =>
        if is_exception e then
          (Ok (error_body (lit "Invalid JSON format"), 400%Z),
           emit [EvLog WARNING (lit "Invalid JSON in request: " ++ exn_msg e)] w)
        else (Err e, w)
    | Ok PNone => (Ok (error_body (lit "Request body is required"), 400%Z), w)
    | Ok data =>
        match name_in data with
        | Err e => (Err e, w)
        | Ok false => (Ok (error_body (lit "Name is required"), 400%Z), w)
        | Ok true =>
            match getitem_name data with
            | Err e => (Err e, w)
            | Ok raw =>
                let max_length := MAX_NAME_LENGTH cfg in
                let (is_valid, error_msg) := Routes.validate_name raw max_length in
                if negb is_valid then
                  (Ok (PDict [(lit "error",
                               match error_msg with Some m => PStr m | None => PNone end)],
                       400%Z), w)
                else
                  let name := strip (str_value raw) in
                  let database_path := DATABASE_PATH cfg in
                  match add_user (PStr name) database_path w with
                  | (Ok user_id, w') =>
                      (Ok (PDict [(lit "id", user_id); (lit "name", PStr name)], 201%Z),
                       emit [EvLog INFO (lit "User created successfully: ID="
                                           ++ format_value user_id ++ lit ", name="
                                           ++ prefix 20 name)] w')
                  | (Err e, w') =>
                      if is_integrity_error e then
                        (Ok (error_body (lit "User with this name may already exist"), 409%Z),
                         emit [EvLog WARNING (lit "Integrity error creating user: "
                                                ++ exn_msg e)] w')
                      else if is_sqlite_error e then
                        (Ok (error_body (lit "Database error occurred"), 500%Z),
                         emit [EvLog ERROR (lit "Database error creating user: "
                                              ++ exn_msg e)] w')
                      else if is_value_error e then
                        (Ok (error_body (exn_msg e), 400%Z),
                         emit [EvLog WARNING (lit "Validation error: " ++ exn_msg e)] w')
                      else if is_exception e then
                        (Ok (error_body (lit "Internal server error"), 500%Z),
                         emit [EvLog ERROR (lit "Unexpected error creating user: "
                                              ++ exn_msg e)] w')
                      else (Err e, w')
                  end
            end
        end
    end.

(** [get_user_endpoint(user_id)], the handler of [GET /users/<int:user_id>]. *)
Definition get_user_endpoint (cfg : config) (user_id : Z) (w : world)
    : result response * world :=
  if (user_id <=? 0)%Z then
    (Ok (error_body (lit "Invalid user ID"), 400%Z), w)
  else
    let database_path := DATABASE_PATH cfg in
    match get_user (PInt user_id) database_path w with
    | (Ok user, w') =>
        if negb (truthy user) then
          (Ok (error_body (lit "User not found"), 404%Z), w')
        else (Ok (user, 200%Z), w')
    | (Err e, w') =>
        if is_sqlite_error e then
          (Ok (error_body (lit "Database error occurred"), 500%Z),
           emit [EvLog ERROR (lit "Database error getting user " ++ str_of_int user_id
                                ++ lit ": " ++ exn_msg e)] w')
        else if is_exception e then
          (Ok (error_body (lit "Internal server error"), 500%Z),
           emit [EvLog ERROR (lit "Unexpected error getting user " ++ str_of_int user_id
                                ++ lit ": " ++ exn_msg e)] w')
        else (Err e, w')
    end.

(** [conn.execute("SELECT 1")]: it reads no table. *)
Definition execute_select_1 (conn : connection) : result unit * connection :=
  (Ok tt, conn).

(** [health_check()], the handler of [GET /health]. *)
Definition health_check (cfg : config) (w : world) : result response * world :=
  let database_path := DATABASE_PATH cfg in
  let body : block pyval := fun conn =>
    match execute_select_1 conn with
    | (Err e, conn') => (Raised e, conn', [])
    | (Ok _, conn') => (Fallthrough, conn', [])
    end in
  match get_db_connection database_path body w with
  | (Raised e, w') =>
      if is_exception e then
        (Ok (PDict [(lit "status", PStr (lit "unhealthy"));
                    (lit "database", PStr (lit "disconnected"));
                    (lit "error", PStr (exn_msg e))], 503%Z),
         emit [EvLog ERROR (lit "Health check failed: " ++ exn_msg e)] w')
      else (Err e, w')
  | (_, w') =>
      (Ok (PDict [(lit "status", PStr (lit "healthy"));
                  (lit "database", PStr (lit "connected"))], 200%Z), w')
  end.

End Endpoints.

(* ================================================================== *)
(** ** The first layered variant: [app/database.py], [app/services.py],
       [app/routes.py], [app/__init__.py] *)
(* ================================================================== *)

Module V1.

Definition DATABASE_PATH : string := "secure_app.db".

(** [with get_db_connection() as conn: body]: the connection is opened
    before the [try], one handler takes every [Exception], nothing is
    logged. *)
Definition get_db_connection {A : Type} (body : block A) (w : world)
    : outcome A * world :=
  match connect DATABASE_PATH w with
  | (Err e, w0) => (Raised e, w0)
  | (Ok conn, w0) =>
      let '(o, conn1, evs) := body conn in
      let w1 := emit evs w0 in
      match o with
      | Raised e =>
          if is_exception e then
            let (conn2, w2) := rollback DATABASE_PATH conn1 w1 in
            (Raised e, close DATABASE_PATH conn2 w2)
          else
            (Raised e, close DATABASE_PATH conn1 w1)
      | _ =>
          let (conn2, w2) := commit DATABASE_PATH conn1 w1 in
          (o, close DATABASE_PATH conn2 w2)
      end
  end.

(** What leaves a function whose body is one [with] statement. *)
Definition leave (r : outcome pyval * world) : result pyval * world :=
  match r with
  | (Raised e, w') => (Err e, w')
  | (Returned v, w') => (Ok v, w')
  | (Fallthrough, w') => (Ok PNone, w')
  end.

(** [init_db()] *)
Definition init_db (w : world) : result pyval * world :=
  leave (get_db_connection (fun conn =>
    match execute CreateUsersIfNotExists conn with
    | (Err e, conn') => (Raised e, conn', [])
    | (Ok _, conn') => (Fallthrough, conn', [])
    end) w).

(** [add_user(name)] for the [str] its annotation asks for: the name is
    bound as it is. *)
Definition add_user (name : pystr) (w : world) : result pyval * world :=
  leave (get_db_connection (fun conn =>
    match execute (InsertUser name) conn with
    | (Err e, conn') => (Raised e, conn', [])
    | (Ok cur, conn') => (Returned (PInt (lastrowid cur)), conn', [])
    end) w).

(** [get_user(user_id)] for an [int]. *)
Definition get_user (user_id : Z) (w : world) : result pyval * world :=
  leave (get_db_connection (lookup_block (SelectUserById user_id)) w).

(** [get_user_by_name(name)] for a [str]. *)
Definition get_user_by_name (name : pystr) (w : world) : result pyval * world :=
  leave (get_db_connection (lookup_block (SelectUserByName name)) w).

(** [create_user()]; [get_json] is [request.get_json()]. *)
Definition create_user (get_json : result pyval) (w : world)
    : result Endpoints.response * world :=
  match get_json with
  | Err e => (Err e, w)
  | Ok data =>
      if negb (truthy data) then
        (Ok (Endpoints.error_body (lit "Name is required"), 400%Z), w)
      else
        match Endpoints.name_in data with
        | Err e => (Err e, w)
        | Ok false => (Ok (Endpoints.error_body (lit "Name is required"), 400%Z), w)
        | Ok true =>
            match Endpoints.getitem_name data with
            | Err e => (Err e, w)
            | Ok raw =>
                if negb (isinstance_str raw)
                   || negb (truthy (PStr (strip (str_value raw)))) then
                  (Ok (Endpoints.error_body (lit "Name must be a non-empty string"),
                       400%Z), w)
                else
                  match add_user (strip (str_value raw)) w with
                  | (Ok user_id, w') =>
                      (Ok (PDict [(lit "id", user_id);
                                  (lit "name", PStr (strip (str_value raw)))], 201%Z), w')
                  | (Err e, w') =>
                      if is_exception e then
                        (Ok (Endpoints.error_body (lit "Failed to create user"), 500%Z), w')
                      else (Err e, w')
                  end
            end
        end
  end.

(** [get_user_endpoint(user_id)] *)
Definition get_user_endpoint (user_id : Z) (w : world)
    : result Endpoints.response * world :=
  match get_user user_id w with
  | (Ok user, w') =>
      if negb (truthy user) then
        (Ok (Endpoints.error_body (lit "User not found"), 404%Z), w')
      else (Ok (user, 200%Z), w')
  | (Err e, w') => (Err e, w')
  end.

(** [create_app()]: the schema is initialized on every start. *)
Definition create_app (w : world) : result flask * world :=
  let app := Flask None [] in
  match init_db w with
  | (Err e, w') => (Err e, w')
  | (Ok _, w') => (Ok (register_blueprint "api" app), w')
  end.

End V1.

(* ================================================================== *)
(** ** The prototype's tracker: [utils.py] *)
(* ================================================================== *)

Module Prototype.

(** The module-level list [active_users = []], the first list object of
    that module's heap. *)
Definition active_users : ref := 0%nat.

(** [set_active(user_id)], run to its end without another thread in
    between; the [time.sleep(0.1)] between the two steps changes no
    state. *)
Definition set_active (user_id : Z) (h : heap) : heap :=
  let h1 := list_append active_users user_id h in
  if (5 <? List.length (deref h1 active_users))%nat
  then list_pop0 active_users h1
  else h1.

(** A run of [set_active] calls, one after the other. *)
Definition set_active_all (ids : list Z) (h : heap) : heap :=
  fold_left (fun h id => set_active id h) ids h.

End Prototype.

(* ================================================================== *)
(** ** Predicates on stores and traces *)
(* ================================================================== *)

Module Props.

(** The rows of the [users] table of a database. *)
Definition db_rows (db : database) : list row :=
  match find_table "users" db with
  | Some t => rows t
  | None => []
  end.

(** The rows of the [users] table of the file at [path]. *)
Definition user_rows (path : string) (w : world) : list row :=
  match files w path with
  | Some db =>
      match find_table "users" db with
      | Some t => rows t
      | None => []
      end
  | None => []
  end.

(** An event that is no log record. *)
Definition is_lifecycle (ev : event) : bool :=
  match ev with EvLog _ _ => false | _ => true end.

(** The connection life cycle of a trace. *)
Definition lifecycle (tr : list event) : list event := filter is_lifecycle tr.

(** A string made of white space only. *)
Definition all_whitespace (s : pystr) : bool := forallb is_whitespace s.

(** What a look-up answers on a table: the dictionary of the first row
    that passes the test, or [None]. *)
Definition first_match (p : row -> bool) (t : table) : pyval :=
  match select p t with
  | (id, name) :: _ => user_dict id name
  | [] => PNone
  end.

(** The test of [WHERE id = ?] and of [WHERE name = ?]. *)
Definition has_id (id : Z) (r : row) : bool := (row_id r =? id)%Z.
Definition has_name (name : pystr) (r : row) : bool := pystr_eqb (row_name r) name.

(** What a statement run on its own connection to [path] answers: the
    store's error when the file does not open or has no [users] table,
    then the binding error [bind] when the parameter does not bind, then
    [answer] on the table. *)
Definition statement_answer {A : Type} (bind : option exn)
    (answer : table -> result A) (path : string) (w : world) : result A :=
  match files w path with
  | None => Err cannot_open
  | Some db =>
      match find_table "users" db with
      | None => Err no_such_table
      | Some t =>
          match bind with
          | Some e => Err e
          | None => answer t
          end
      end
  end.

(** The binding error of an [int] parameter, if any. *)
Definition bind_int (z : Z) : option exn :=
  if bindable_int z then None else Some overflow_error.

(** A name the store can take as a row: it binds and its record fits. *)
Definition storable (name : pystr) : bool := bindable_str name && row_fits name.

(** What [WHERE id = ?] and [WHERE name = ?] answer. *)
Definition id_answer (id : Z) : string -> world -> result pyval :=
  statement_answer (bind_int id) (fun t => Ok (first_match (has_id id) t)).
Definition name_answer (name : pystr) : string -> world -> result pyval :=
  statement_answer (bind_str name) (fun t => Ok (first_match (has_name name) t)).

(** What [INSERT INTO users (name) VALUES (?)] answers. *)
Definition insert_answer (name : pystr) : string -> world -> result pyval :=
  statement_answer (bind_str name)
    (fun t => if id_space_full t then Err database_full
              else if negb (row_fits name) then Err too_big
              else Ok (PInt (next_row_id t))).

(** A table with one more row. *)
Definition with_row (name : pystr) (db : database) : database :=
  match find_table "users" db with
  | Some t =>
      set_table "users"
        (Table (rows t ++ [Row (next_row_id t) name None]) (next_row_id t)) db
  | None => db
  end.



End Props.
Import Props.

(* ================================================================== *)
(** ** Trimming *)
(* ================================================================== *)

Section Strip.

Lemma lstrip_head (c : N) (s : pystr) :
  is_whitespace c = false -> lstrip (c :: s) = c :: s.
Proof. intros H. simpl. now rewrite H. Qed.

Lemma lstrip_idempotent (s : pystr) : lstrip (lstrip s) = lstrip s.
Proof.
  induction s as [|c s IH]; simpl; [reflexivity|].
  destruct (is_whitespace c) eqn:E; [exact IH|].
  now apply lstrip_head.
Qed.

(** A string that ends with a character that is not white space keeps
    that character under [lstrip]. *)
Lemma lstrip_snoc (s : pystr) (c : N) :
  is_whitespace c = false -> lstrip (s ++ [c]) = lstrip s ++ [c].
Proof.
  intros H. induction s as [|d s IH]; simpl.
  - now rewrite H.
  - destruct (is_whitespace d); [exact IH | reflexivity].
Qed.

Lemma rstrip_head (c : N) (s : pystr) :
  is_whitespace c = false -> rstrip (c :: s) = c :: rstrip s.
Proof.
  intros H. unfold rstrip. simpl rev.
  rewrite lstrip_snoc by exact H.
  rewrite rev_app_distr. reflexivity.
Qed.

Lemma rstrip_idempotent (s : pystr) : rstrip (rstrip s) = rstrip s.
Proof.
  unfold rstrip. rewrite rev_involutive, lstrip_idempotent. reflexivity.
Qed.

(** What [strip] returns starts with no white space. *)
Lemma lstrip_strip (s : pystr) : lstrip (strip s) = strip s.
Proof.
  unfold strip. induction s as [|c s IH]; simpl; [reflexivity|].
  destruct (is_whitespace c) eqn:E; [exact IH|].
  rewrite rstrip_head by exact E. now apply lstrip_head.
Qed.

(** Trimming a trimmed string changes nothing. *)
Lemma strip_idempotent (s : pystr) : strip (strip s) = strip s.
Proof.
  unfold strip at 1. rewrite lstrip_strip.
  unfold strip. apply rstrip_idempotent.
Qed.

End Strip.

(* ================================================================== *)
(** ** Validation *)
(* ================================================================== *)

Section Validation.

Lemma forbiddenb_spec (c : N) : forbiddenb c = true <-> forbidden c.
Proof.
  unfold forbiddenb, forbidden.
  rewrite !andb_true_iff, !negb_true_iff, N.ltb_lt, !N.eqb_neq. tauto.
Qed.

Lemma existsb_forbidden (s : pystr) :
  existsb forbiddenb s = true <-> exists c, In c s /\ forbidden c.
Proof.
  rewrite existsb_exists. split; intros [c [H1 H2]]; exists c; split; auto;
    now apply forbiddenb_spec.
Qed.

(** The four tests of [validate_name] on a non-empty string, one after
    the other. *)
Lemma validate_name_str (s : pystr) (m : Z) :
  s <> [] ->
  Routes.validate_name (PStr s) m =
    match strip s with
    | [] => (false, Some (lit "Name cannot be empty"))
    | t =>
        if (m <? len t)%Z then
          (false, Some (lit "Name must be no longer than " ++ str_of_int m
                          ++ lit " characters"))
        else if existsb forbiddenb t then
          (false, Some (lit "Name contains invalid characters"))
        else (true, None)
    end.
Proof.
  intros Hs. unfold Routes.validate_name.
  destruct s as [|c s]; [congruence|]. cbn [truthy negb].
  destruct (strip (c :: s)) as [|d t] eqn:E; [reflexivity|].
  cbn [truthy negb]. rewrite Z.gtb_ltb.
  destruct (m <? len (d :: t))%Z; [reflexivity|].
  replace (existsb _ (d :: t)) with (existsb forbiddenb (d :: t)); [reflexivity|].
  generalize (d :: t). intros l.
  induction l as [|x l IH]; simpl; [reflexivity|].
  unfold forbiddenb at 1. rewrite IH. simpl.
  rewrite orb_false_r, !negb_orb, !andb_assoc. reflexivity.
Qed.

Lemma truthy_str (s : pystr) : truthy (PStr s) = true <-> s <> [].
Proof. destruct s; simpl; split; congruence. Qed.

(** C2, as the code has it: [validate_name] applies five rules in order
    and the first failure wins.  It answers "Name is required" when the
    value is falsy ([None], [False], [0], an empty string, list or
    dictionary); otherwise "Name must be a string" when the value is not a
    [str]; otherwise, with [t] the value trimmed of leading and trailing
    white space, "Name cannot be empty" when [t] is empty; otherwise "Name
    must be no longer than N characters" when [t] is longer than
    [max_length]; otherwise "Name contains invalid characters" when some
    character of [t] has a code point below 32 other than 9, 10 and 13;
    otherwise it accepts with [(True, None)], and the accepted name is
    [t]. *)
Theorem validate_name_rules (raw : pyval) (max_length : Z) :
  (truthy raw = false ->
     Routes.validate_name raw max_length = (false, Some (lit "Name is required")))
  /\ (truthy raw = true -> isinstance_str raw = false ->
     Routes.validate_name raw max_length = (false, Some (lit "Name must be a string")))
  /\ (forall s, raw = PStr s -> s <> [] ->
      let t := strip s in
      (t = [] ->
         Routes.validate_name raw max_length = (false, Some (lit "Name cannot be empty")))
      /\ (t <> [] -> (max_length < len t)%Z ->
         Routes.validate_name raw max_length =
           (false, Some (lit "Name must be no longer than " ++ str_of_int max_length
                           ++ lit " characters")))
      /\ (t <> [] -> (len t <= max_length)%Z -> (exists c, In c t /\ forbidden c) ->
         Routes.validate_name raw max_length =
           (false, Some (lit "Name contains invalid characters")))
      /\ (t <> [] -> (len t <= max_length)%Z -> (forall c, In c t -> ~ forbidden c) ->
         Routes.validate_name raw max_length = (true, None) /\ strip t = t)).
Proof.
  split; [|split].
  - intros H. unfold Routes.validate_name. now rewrite H.
  - intros H1 H2. unfold Routes.validate_name. rewrite H1. simpl.
    destruct raw; try reflexivity. discriminate.
  - intros s -> Hs t. rewrite (validate_name_str max_length Hs). fold t.
    repeat split.
    + intros ->. reflexivity.
    + intros Ht Hlen. destruct t as [|d t']; [congruence|]. cbv beta iota zeta.
      apply Z.ltb_lt in Hlen. now rewrite Hlen.
    + intros Ht Hlen Hex. destruct t as [|d t']; [congruence|]. cbv beta iota zeta.
      apply Z.ltb_ge in Hlen. rewrite Hlen.
      apply existsb_forbidden in Hex. now rewrite Hex.
    + destruct t as [|d t'] eqn:E; [congruence|]. cbv beta iota zeta.
      apply Z.ltb_ge in H0. rewrite H0.
      destruct (existsb forbiddenb (d :: t')) eqn:Ex; [|reflexivity].
      apply existsb_forbidden in Ex. destruct Ex as [c [Hin Hc]].
      exfalso. exact (H1 c Hin Hc).
    + subst t. apply strip_idempotent.
Qed.

(** The rules at work on ["  Alice "], accepted as ["Alice"]. *)
Lemma validate_name_rules_witness :
  Routes.validate_name (PStr (lit "  Alice ")) 255 = (true, None)
  /\ strip (strip (lit "  Alice ")) = strip (lit "  Alice ").
Proof.
  destruct (validate_name_rules (PStr (lit "  Alice ")) 255) as [_ [_ H]].
  destruct (H (lit "  Alice ") eq_refl ltac:(discriminate)) as [_ [_ [_ H4]]].
  apply H4.
  - vm_compute. discriminate.
  - vm_compute. discriminate.
  - intros c Hin [Hlt _]. vm_compute in Hin.
    repeat (destruct Hin as [<- | Hin]; [vm_compute in Hlt; discriminate|]).
    exact Hin.
Defined.

(** C2 as the specification words it fails on the integer [0]: a value
    that is neither absent, null nor empty, and not text, is reported as
    missing, not as of the wrong type. *)
Lemma validate_name_zero_counterexample :
  verdict (Routes.validate_name (PInt 0) 255) = Some (Some MissingValue)
  /\ verdict_of (validateName (PInt 0) 255) = Some WrongType
  /\ verdict (Routes.validate_name (PInt 0) 255)
       <> Some (verdict_of (validateName (PInt 0) 255)).
Proof. repeat split. vm_compute. discriminate. Qed.

(** A name [validate_name] accepts is, once trimmed as the route trims
    it, a non-empty trimmed string. *)
Lemma accepted_name_trimmed (s : pystr) (max_length : Z) :
  Routes.validate_name (PStr s) max_length = (true, None) ->
  strip s <> [] /\ strip (strip s) = strip s.
Proof.
  intros H. split; [|apply strip_idempotent].
  destruct s as [|c s]; [discriminate|].
  rewrite validate_name_str in H by discriminate.
  intros E. rewrite E in H. discriminate.
Qed.

Lemma kind_of_too_long (rest : pystr) :
  kind_of_message (lit "Name must be no longer than " ++ rest) = Some TooLong.
Proof. reflexivity. Qed.

(** Away from the falsy values that are no strings, the code and the
    specification's five rules give the same verdict. *)
Lemma validate_name_refines (raw : pyval) (max_length : Z) :
  missing raw = negb (truthy raw) ->
  verdict (Routes.validate_name raw max_length)
    = Some (verdict_of (validateName raw max_length)).
Proof.
  intros Hm. unfold validateName. rewrite Hm.
  destruct (truthy raw) eqn:Ht; cbn [negb].
  - destruct raw as [| b | z | s | l | d];
      try (unfold Routes.validate_name; rewrite Ht; reflexivity).
    apply truthy_str in Ht. rewrite (validate_name_str max_length Ht).
    destruct (strip s) as [|c t]; [reflexivity|]. cbv zeta.
    destruct (max_length <? len (c :: t))%Z; [reflexivity|].
    destruct (existsb forbiddenb (c :: t)); reflexivity.
  - unfold Routes.validate_name. rewrite Ht. reflexivity.
Qed.

End Validation.

(* ================================================================== *)
(** ** The store *)
(* ================================================================== *)

Section Store.

Lemma find_set_table (name : string) (t t0 : table) (db : database) :
  find_table name db = Some t0 ->
  find_table name (set_table name t db) = Some t.
Proof.
  induction db as [|[n t1] db IH]; simpl; [discriminate|].
  destruct (String.eqb n name) eqn:E; simpl; rewrite E; auto.
Qed.

Lemma row_id_le_max (r : row) (rs : list row) :
  In r rs -> (row_id r <= max_row_id rs)%Z.
Proof.
  induction rs as [|x rs IH]; simpl; [tauto|].
  intros [-> | H]; [lia|]. specialize (IH H). lia.
Qed.

Lemma max_row_id_nonneg (rs : list row) : (0 <= max_row_id rs)%Z.
Proof. induction rs; simpl; lia. Qed.

Lemma next_row_id_positive (t : table) : (0 < next_row_id t)%Z.
Proof. unfold next_row_id. pose proof (max_row_id_nonneg (rows t)). lia. Qed.

(** No row already in the table has the id the next insert gets. *)
Lemma next_row_id_fresh (t : table) (r : row) :
  In r (rows t) -> (row_id r =? next_row_id t)%Z = false.
Proof.
  intros H. apply row_id_le_max in H. unfold next_row_id.
  apply Z.eqb_neq. lia.
Qed.

Lemma filter_none {A : Type} (p : A -> bool) (l : list A) :
  (forall x, In x l -> p x = false) -> filter p l = [].
Proof.
  induction l as [|x l IH]; simpl; [reflexivity|].
  intros H. rewrite (H x) by auto. apply IH. auto.
Qed.

Lemma count_tables_find (name : string) (db : database) :
  count_tables name db = 0%nat <-> find_table name db = None.
Proof.
  unfold count_tables.
  induction db as [|[n t] db IH]; simpl; [tauto|].
  destruct (String.eqb n name); simpl; [split; discriminate | exact IH].
Qed.

Lemma count_tables_app (name : string) (db1 db2 : database) :
  count_tables name (db1 ++ db2) = (count_tables name db1 + count_tables name db2)%nat.
Proof. unfold count_tables. now rewrite filter_app, length_app. Qed.

(** A string that binds raises nothing when it is bound. *)
Lemma bindable_bind (s : pystr) : bindable_str s = true -> bind_str s = None.
Proof. unfold bindable_str. destruct (bind_str s); [discriminate | reflexivity]. Qed.

Lemma utf8_length_nonneg (s : pystr) : (0 <= utf8_length s)%Z.
Proof.
  induction s as [|c s IH]; [reflexivity|]. cbn [utf8_length fold_right].
  fold (utf8_length s). unfold utf8_size.
  destruct (c <? 128)%N; [lia|]. destruct (c <? 2048)%N; [lia|].
  destruct (c <? 65536)%N; lia.
Qed.

(** The longest name whose record fits takes 999,999,972 bytes. *)
Lemma row_fits_bytes (s : pystr) :
  row_fits s = true <-> (utf8_length s <= 999999972)%Z.
Proof.
  unfold row_fits, record_size, varint_length, SQLITE_MAX_LENGTH.
  pose proof (utf8_length_nonneg s) as H. rewrite Z.leb_le.
  repeat match goal with
         | |- context [(?a <? ?b)%Z] => destruct (Z.ltb_spec a b)
         end; lia.
Qed.

(** What the store can take as a name: a string without surrogates whose
    UTF-8 encoding has at most 999,999,972 bytes. *)
Lemma storable_spec (s : pystr) :
  storable s = true
  <-> existsb is_surrogate s = false /\ (utf8_length s <= 999999972)%Z.
Proof.
  unfold storable, bindable_str, bind_str, INT_MAX, SQLITE_MAX_LENGTH.
  rewrite andb_true_iff, row_fits_bytes.
  destruct (existsb is_surrogate s); [intuition discriminate|].
  destruct (Z.ltb_spec 2147483647 (utf8_length s)); [split; [intuition discriminate | lia]|].
  destruct (Z.ltb_spec 1000000000 (utf8_length s)); [split; [intuition discriminate | lia]|].
  tauto.
Qed.

(** What binds as a name: a string without surrogates whose UTF-8
    encoding has at most [SQLITE_MAX_LENGTH] bytes. *)
Lemma bindable_spec (s : pystr) :
  bindable_str s = true
  <-> existsb is_surrogate s = false /\ (utf8_length s <= SQLITE_MAX_LENGTH)%Z.
Proof.
  unfold bindable_str, bind_str, INT_MAX, SQLITE_MAX_LENGTH.
  destruct (existsb is_surrogate s); [intuition discriminate|].
  destruct (Z.ltb_spec 2147483647 (utf8_length s)); [split; [intuition discriminate | lia]|].
  destruct (Z.ltb_spec 1000000000 (utf8_length s)); [split; [intuition discriminate | lia]|].
  tauto.
Qed.

Lemma storable_bind (s : pystr) :
  storable s = true -> bind_str s = None /\ row_fits s = true.
Proof.
  unfold storable. intros H. apply andb_true_iff in H. destruct H as [H1 H2].
  split; [now apply bindable_bind | exact H2].
Qed.

End Store.

(* ================================================================== *)
(** ** The connection manager *)
(* ================================================================== *)

Section Connection.

Lemma same_file (path : string) (w : world) (db : database) :
  files w path = Some db ->
  forall q, (if String.eqb q path then Some db else files w q) = files w q.
Proof.
  intros Hf q. destruct (String.eqb q path) eqn:E; [|reflexivity].
  apply String.eqb_eq in E. now subst q.
Qed.

Variable A : Type.
Variable path : string.
Variable body : block A.

(** What a [with] statement on a file that opens returns and leaves: the
    body's way of leaving; in the file the pending copy when the body did
    not raise and what the connection had made durable when it did; the
    handle closed last. *)
Lemma get_db_connection_run (w : world) (db : database) (c' : connection)
    (o : outcome A) (evs : list event) :
  files w path = Some db ->
  body (Connection db None) = (o, c', evs) ->
  exists w' mid,
    get_db_connection path body w = (o, w')
    /\ (forall q, files w' q =
                  if String.eqb q path
                  then Some match o with Raised _ => durable c' | _ => current c' end
                  else files w q)
    /\ open_handles w' = open_handles w
    /\ trace w' = trace w ++ EvConnect path :: evs ++ mid ++ [EvClose path]
    /\ match o with
       | Raised _ => ~ In (EvCommit path) mid
       | _ => mid = [EvCommit path]
       end.
Proof.
  intros Hf Hb. unfold get_db_connection, connect. rewrite Hf, Hb.
  assert (F : forall (X : database) (f : string -> option database) q,
            (if String.eqb q path then Some X
             else if String.eqb q path then Some X else f q)
            = (if String.eqb q path then Some X else f q)).
  { intros X f q. destruct (String.eqb q path); reflexivity. }
  destruct o as [| a | e].
  - eexists. exists [EvCommit path]. split; [reflexivity|].
    cbn. repeat split; [apply F|]. now rewrite <- !app_assoc.
  - eexists. exists [EvCommit path]. split; [reflexivity|].
    cbn. repeat split; [apply F|]. now rewrite <- !app_assoc.
  - destruct (is_sqlite_error e); [|destruct (is_exception e)].
    + eexists. exists [EvRollback path; EvLog ERROR (lit "Database error: " ++ exn_msg e)].
      split; [reflexivity|]. cbn. repeat split; [apply F | now rewrite <- !app_assoc |].
      intros [H|[H|[]]]; discriminate.
    + eexists.
      exists [EvRollback path; EvLog ERROR (lit "Unexpected database error: " ++ exn_msg e)].
      split; [reflexivity|]. cbn. repeat split; [apply F | now rewrite <- !app_assoc |].
      intros [H|[H|[]]]; discriminate.
    + eexists. exists []. split; [reflexivity|].
      cbn. repeat split; [now rewrite <- !app_assoc | tauto].
Qed.

(** The world it leaves when the file cannot be opened. *)
Lemma get_db_connection_unreachable (w : world) :
  files w path = None ->
  get_db_connection path body w =
    (Raised cannot_open,
     World (files w) (open_handles w)
       (trace w ++ [EvLog ERROR (lit "Database error: " ++ exn_msg cannot_open)])).
Proof.
  intros Hf. unfold get_db_connection, connect. rewrite Hf. reflexivity.
Qed.

End Connection.

Section ConnectionContract.

Lemma create_users_idempotent (db : database) :
  create_users (create_users db) = create_users db.
Proof.
  unfold create_users at 2 3. destruct (find_table "users" db) as [t|] eqn:E.
  - unfold create_users. now rewrite E.
  - unfold create_users.
    replace (find_table "users" (db ++ [("users"%string, Table [] 0)]))
      with (Some (Table [] 0)); [reflexivity|].
    clear -E. induction db as [|[n t] db IH]; [reflexivity|].
    simpl in *. destruct (String.eqb n "users"); [discriminate | now apply IH].
Qed.






(** A block that returns early has its writes committed. *)
Example early_return_commits :
  let (o, w') := get_db_connection "secure_app.db" Sample.write_then_return
                   (Sample.world_with Sample.one_user) in
  o = Returned PNone
  /\ files w' "secure_app.db"
       = Some [("users"%string,
                Table [Row 1 (lit "Alice") None; Row 2 (lit "Bob") None] 2)]
  /\ trace w' = [EvConnect "secure_app.db"; EvCommit "secure_app.db";
                 EvClose "secure_app.db"].
Proof. vm_compute. repeat split. Qed.

(** An error that is no [Exception] skips both handlers; closing the
    handle still drops the pending writes. *)
Example base_exception_drops_writes :
  let body : block pyval := fun conn =>
    (Raised (Exn KeyboardInterrupt []), snd (execute (InsertUser (lit "Bob")) conn), []) in
  let (o, w') := get_db_connection "secure_app.db" body
                   (Sample.world_with Sample.one_user) in
  files w' "secure_app.db" = Some Sample.one_user
  /\ open_handles w' = 0%nat
  /\ trace w' = [EvConnect "secure_app.db"; EvClose "secure_app.db"].
Proof. vm_compute. repeat split. Qed.

End ConnectionContract.

(* ================================================================== *)
(** ** The schema initializer and the application factory *)
(* ================================================================== *)

Section Schema.

(** What [CREATE TABLE IF NOT EXISTS users] leaves of a database. *)
Lemma create_users_table (db : database) :
  find_table "users" (create_users db) <> None
  /\ count_tables "users" (create_users db) = Nat.max 1 (count_tables "users" db).
Proof.
  unfold create_users. destruct (find_table "users" db) as [t|] eqn:E.
  - split; [congruence|].
    destruct (count_tables "users" db) eqn:C; [|lia].
    apply count_tables_find in C. congruence.
  - assert (F : find_table "users" (db ++ [("users"%string, Table [] 0)])
                = Some (Table [] 0)).
    { clear -E. induction db as [|[n t] db IH]; [reflexivity|].
      simpl in *. destruct (String.eqb n "users"); [discriminate|]. now apply IH. }
    rewrite F. split; [congruence|].
    apply count_tables_find in E. rewrite count_tables_app, E. reflexivity.
Qed.

Lemma create_users_present (db : database) (t : table) :
  find_table "users" db = Some t -> create_users db = db.
Proof. intros H. unfold create_users. now rewrite H. Qed.

(** [init_db] on a file that opens. *)
Lemma init_db_open (path : string) (w : world) (db : database) :
  files w path = Some db ->
  exists w',
    init_db path w = (Ok PNone, w')
    /\ (forall q, files w' q =
                  if String.eqb q path then Some (create_users db) else files w q)
    /\ open_handles w' = open_handles w.
Proof.
  intros Hf. unfold init_db.
  match goal with |- context [get_db_connection _ ?b _] => set (body := b) end.
  assert (Hb : body (Connection db None)
               = (Fallthrough, Connection (create_users db) None,
                  [EvLog INFO (lit "Database initialized at " ++ lit path)]))
    by reflexivity.
  destruct (@get_db_connection_run pyval path body w db _ _ _ Hf Hb)
    as [w' [mid [-> [Hfiles [Hh _]]]]].
  exists w'. split; [reflexivity|]. split; [exact Hfiles | exact Hh].
Qed.

(** [init_db] on a path that cannot be opened. *)
Lemma init_db_unreachable (path : string) (w : world) :
  files w path = None ->
  exists w', init_db path w = (Err cannot_open, w') /\ files w' = files w.
Proof.
  intros Hf. unfold init_db. rewrite get_db_connection_unreachable by exact Hf.
  eexists. split; reflexivity.
Qed.

(** C7: two calls of [init_db] in a row on a store that opens: neither
    raises, the second leaves the store exactly as the first left it, the
    [users] table exists, and it exists once unless the file held several
    to begin with (the call adds one only when there is none). *)
Theorem init_db_idempotent (path : string) (w : world) (db : database) :
  files w path = Some db ->
  exists w1 w2 db1,
    init_db path w = (Ok PNone, w1)
    /\ init_db path w1 = (Ok PNone, w2)
    /\ files w1 path = Some db1
    /\ (forall p, files w2 p = files w1 p)
    /\ find_table "users" db1 <> None
    /\ count_tables "users" db1 = Nat.max 1 (count_tables "users" db).
Proof.
  intros Hf.
  destruct (init_db_open path w Hf) as [w1 [H1 [Hf1 _]]].
  assert (Hp1 : files w1 path = Some (create_users db))
    by (rewrite Hf1; now rewrite String.eqb_refl).
  destruct (init_db_open path w1 Hp1) as [w2 [H2 [Hf2 _]]].
  destruct (create_users_table db) as [Hfind Hcount].
  exists w1, w2, (create_users db).
  repeat split; auto.
  intros p. rewrite Hf2, create_users_idempotent.
  destruct (String.eqb p path) eqn:E; [|reflexivity].
  apply String.eqb_eq in E. now subst p.
Qed.

(** On a new, empty file the two calls leave one empty [users] table. *)
Lemma init_db_idempotent_witness :
  exists w1 w2,
    init_db "secure_app.db" (Sample.world_with []) = (Ok PNone, w1)
    /\ init_db "secure_app.db" w1 = (Ok PNone, w2)
    /\ files w2 "secure_app.db" = files w1 "secure_app.db"
    /\ files w1 "secure_app.db" = Some [("users"%string, Table [] 0)].
Proof.
  destruct (@init_db_idempotent "secure_app.db" (Sample.world_with []) [] eq_refl)
    as [w1 [w2 [db1 [H1 [H2 [H3 [H4 _]]]]]]].
  exists w1, w2.
  split; [exact H1|]. split; [exact H2|]. split; [apply H4|].
  vm_compute in H1. injection H1 as E. rewrite <- E. reflexivity.
Defined.

(** C8, where the code stops short of it: when [init_db] fails with a
    store error during start-up, with [INIT_DB_ON_START] on, the error is
    logged; with [DEBUG] off it then leaves [create_app].  With [DEBUG] on
    [create_app] goes on, but the import of the routes module that follows
    raises [NameError], so no application is returned. *)
Theorem create_app_init_failure (cfg : config) (w w1 : world) (e : exn) :
  INIT_DB_ON_START cfg = true ->
  init_db (DATABASE_PATH cfg) w = (Err e, w1) ->
  is_sqlite_error e = true ->
  let w2 := emit [EvLog ERROR (lit "Failed to initialize database: " ++ exn_msg e)] w1 in
  (DEBUG cfg = false -> create_app cfg w = (Err e, w2))
  /\ (DEBUG cfg = true ->
      create_app cfg w
        = (Err (Exn OtherException (lit "name 'Optional' is not defined")), w2)).
Proof.
  intros Hinit Hfail He w2.
  assert (Hx : is_exception e = true).
  { unfold is_sqlite_error in He. unfold is_exception.
    destruct (exn_cls e); try discriminate; reflexivity. }
  unfold create_app. rewrite Hinit, Hfail, Hx.
  split; intros ->; reflexivity.
Qed.

(** A path that cannot be opened: the store's error when strict, the
    import's when lenient. *)
Lemma create_app_init_failure_witness :
  fst (create_app Sample.strict (Sample.world_with [])) = Err cannot_open
  /\ fst (create_app Sample.lenient (Sample.world_with []))
       = Err (Exn OtherException (lit "name 'Optional' is not defined")).
Proof.
  split.
  - destruct (@create_app_init_failure Sample.strict (Sample.world_with [])
                (snd (init_db "missing/secure_app.db" (Sample.world_with [])))
                cannot_open eq_refl eq_refl eq_refl) as [H _].
    rewrite (H eq_refl). reflexivity.
  - destruct (@create_app_init_failure Sample.lenient (Sample.world_with [])
                (snd (init_db "missing/secure_app.db" (Sample.world_with [])))
                cannot_open eq_refl eq_refl eq_refl) as [_ H].
    rewrite (H eq_refl). reflexivity.
Defined.

End Schema.

(* ================================================================== *)
(** ** The user repository *)
(* ================================================================== *)

Section Repository.

(** C10: [add_user] checks the name itself.  An empty string, [None] or
    any value that is no [str] raises [ValueError("Name must be a
    non-empty string")], and the world is the one before the call: no
    connection was opened, nothing was written, nothing was logged. *)
Theorem add_user_rejects_invalid_name (name : pyval) (path : string) (w : world) :
  name = PStr [] \/ name = PNone \/ isinstance_str name = false ->
  add_user name path w
    = (Err (Exn ValueError (lit "Name must be a non-empty string")), w).
Proof.
  intros [-> | [-> | H]]; try reflexivity.
  unfold add_user. rewrite H, orb_true_r. reflexivity.
Qed.

Lemma add_user_rejects_invalid_name_witness :
  add_user (PInt 42) "secure_app.db" (Sample.world_with Sample.one_user)
    = (Err (Exn ValueError (lit "Name must be a non-empty string")),
       Sample.world_with Sample.one_user).
Proof.
  apply add_user_rejects_invalid_name. right. right. reflexivity.
Defined.

Lemma pystr_eqb_eq (a b : pystr) : pystr_eqb a b = true <-> a = b.
Proof.
  revert b. induction a as [|x a IH]; intros [|y b]; simpl;
    try (split; [discriminate | congruence]); [tauto|].
  rewrite andb_true_iff, N.eqb_eq, IH. split; [intros [-> ->] | intros E; injection E]; auto.
Qed.

(** Only a non-empty [str] gets past the guard of [add_user]. *)
Lemma add_user_returns_str (v r : pyval) (path : string) (w w' : world) :
  add_user v path w = (Ok r, w') -> exists n, v = PStr n /\ n <> [].
Proof.
  unfold add_user. destruct v as [| b | z | n | l | d]; try (cbn; discriminate).
  - destruct (truthy (PBool b)); cbn; discriminate.
  - destruct (truthy (PInt z)); cbn; discriminate.
  - destruct n as [|c n]; [cbn; discriminate|]. intros _. eexists. split; [reflexivity | discriminate].
  - destruct (truthy (PList l)); cbn; discriminate.
  - destruct (truthy (PDict d)); cbn; discriminate.
Qed.

(** What the [INSERT] does to a connection that has just been opened. *)
Lemma insert_on_fresh (name : pystr) (db : database) :
  execute (InsertUser name) (Connection db None) =
    match find_table "users" db with
    | None => (Err no_such_table, Connection db None)
    | Some t =>
        match bind_str name with
        | Some e => (Err e, Connection db (Some db))
        | None =>
            if id_space_full t then (Err database_full, Connection db None)
            else if negb (row_fits name) then (Err too_big, Connection db (Some db))
            else (Ok (Cursor (next_row_id t) []), Connection db (Some (with_row name db)))
        end
    end.
Proof.
  unfold execute, with_row. cbn [current pending durable begin].
  destruct (find_table "users" db); reflexivity.
Qed.

(** A statement that fails on a connection that has just been opened
    leaves nothing to commit. *)
Lemma insert_on_fresh_error (name : pystr) (db : database) (e : exn) (c : connection) :
  execute (InsertUser name) (Connection db None) = (Err e, c) -> durable c = db.
Proof.
  rewrite insert_on_fresh.
  destruct (find_table "users" db) as [t|]; [|now intros [= _ <-]].
  destruct (bind_str name); [now intros [= _ <-]|].
  destruct (id_space_full t); [now intros [= _ <-]|].
  destruct (negb (row_fits name)); [now intros [= _ <-] | discriminate].
Qed.

(** The [INSERT] on a connection that has just been opened, next to what
    the statement answers. *)
Lemma insert_on_fresh_answer (name : pystr) (path : string) (w : world) (db : database) :
  files w path = Some db ->
  match insert_answer name path w with
  | Ok v =>
      exists i, v = PInt i
        /\ execute (InsertUser name) (Connection db None)
             = (Ok (Cursor i []), Connection db (Some (with_row name db)))
  | Err e =>
      exists c, execute (InsertUser name) (Connection db None) = (Err e, c)
                /\ durable c = db
  end.
Proof.
  intros Hf. unfold insert_answer, statement_answer. rewrite Hf, insert_on_fresh.
  destruct (find_table "users" db) as [t|]; [|eexists; split; reflexivity].
  destruct (bind_str name); [eexists; split; reflexivity|].
  destruct (id_space_full t); [eexists; split; reflexivity|].
  destruct (negb (row_fits name)); eexists; split; reflexivity.
Qed.

(** [add_user] past its guard: what it returns and what it leaves. *)
Lemma add_user_run (n : pystr) (path : string) (w : world) :
  n <> [] ->
  exists w',
    add_user (PStr n) path w = (insert_answer (strip n) path w, w')
    /\ open_handles w' = open_handles w
    /\ (forall q, files w' q =
          match insert_answer (strip n) path w with
          | Ok _ => if String.eqb q path
                    then option_map (with_row (strip n)) (files w path)
                    else files w q
          | Err _ => files w q
          end).
Proof.
  intros Hn. unfold add_user.
  replace (truthy (PStr n)) with true by (symmetry; now apply truthy_str).
  cbn [negb isinstance_str orb str_value].
  match goal with |- context [get_db_connection _ ?b _] => set (body := b) end.
  destruct (files w path) as [db|] eqn:Hf.
  2:{ rewrite get_db_connection_unreachable by exact Hf.
      unfold insert_answer, statement_answer. rewrite Hf.
      eexists. split; [reflexivity|]. split; reflexivity. }
  pose proof (insert_on_fresh_answer (strip n) path w Hf) as Hx.
  destruct (insert_answer (strip n) path w) as [v | e].
  - destruct Hx as [i [-> Hx]].
    assert (Hb : body (Connection db None)
                 = (Returned (PInt i), Connection db (Some (with_row (strip n) db)),
                    [EvLog INFO (lit "User created with ID: " ++ str_of_int i
                                   ++ lit ", name: " ++ prefix 20 n)]))
      by (unfold body; now rewrite Hx).
    destruct (@get_db_connection_run pyval path body w db _ _ _ Hf Hb)
      as [w' [mid [-> [Hfiles [Hh _]]]]].
    eexists. split; [reflexivity|]. split; [exact Hh|].
    intros q. rewrite Hfiles. reflexivity.
  - destruct Hx as [c [Hx Hd]].
    assert (Hb : body (Connection db None) = (Raised e, c, []))
      by (unfold body; now rewrite Hx).
    destruct (@get_db_connection_run pyval path body w db _ _ _ Hf Hb)
      as [w' [mid [-> [Hfiles [Hh _]]]]].
    assert (Hsame : forall q, files w' q = files w q).
    { intros q. rewrite Hfiles, Hd. now apply same_file. }
    destruct (is_integrity_error e); [|destruct (is_exception e)];
      eexists; (split; [reflexivity|]); (split; [exact Hh | exact Hsame]).
Qed.

(** When the [INSERT] answers, the store opened, had its table, the name
    was bound, an id was left and the record fitted. *)
Lemma insert_answer_ok (name : pystr) (path : string) (w : world) (v : pyval) :
  insert_answer name path w = Ok v ->
  exists db t,
    files w path = Some db
    /\ find_table "users" db = Some t
    /\ storable name = true
    /\ id_space_full t = false
    /\ v = PInt (next_row_id t).
Proof.
  unfold insert_answer, statement_answer, storable, bindable_str.
  destruct (files w path) as [db|] eqn:Hf; [|discriminate].
  destruct (find_table "users" db) as [t|] eqn:Ht; [|discriminate].
  destruct (bind_str name) eqn:Hb; [discriminate|].
  destruct (id_space_full t) eqn:Hfull; [discriminate|].
  destruct (row_fits name) eqn:Hfit; [|discriminate].
  intros H. injection H as <-. exists db, t. auto.
Qed.

(** The other way round. *)
Lemma insert_answer_storable (name : pystr) (path : string) (w : world)
    (db : database) (t : table) :
  files w path = Some db ->
  find_table "users" db = Some t ->
  storable name = true ->
  id_space_full t = false ->
  insert_answer name path w = Ok (PInt (next_row_id t)).
Proof.
  intros Hf Ht Hs Hfull. destruct (storable_bind name Hs) as [Hb Hfit].
  unfold insert_answer, statement_answer. now rewrite Hf, Ht, Hb, Hfull, Hfit.
Qed.

(** What a successful [add_user] did. *)
Lemma add_user_ok (n : pystr) (path : string) (w w' : world) (v : pyval) :
  n <> [] ->
  add_user (PStr n) path w = (Ok v, w') ->
  exists db t,
    files w path = Some db
    /\ find_table "users" db = Some t
    /\ storable (strip n) = true
    /\ id_space_full t = false
    /\ v = PInt (next_row_id t)
    /\ files w' path = Some (with_row (strip n) db)
    /\ (forall q, q <> path -> files w' q = files w q)
    /\ open_handles w' = open_handles w.
Proof.
  intros Hn H. destruct (add_user_run path w Hn) as [w1 [E [Hh Hfiles]]].
  rewrite E in H. injection H as Hv <-.
  destruct (insert_answer_ok _ _ _ Hv) as [db [t [Hf [Ht [Hb [Hfull ->]]]]]].
  rewrite Hv in Hfiles. exists db, t. repeat split; auto.
  - rewrite Hfiles, String.eqb_refl, Hf. reflexivity.
  - intros q Hq. rewrite Hfiles. apply String.eqb_neq in Hq. now rewrite Hq.
Qed.

Lemma with_row_table (name : pystr) (db : database) (t : table) :
  find_table "users" db = Some t ->
  find_table "users" (with_row name db)
    = Some (Table (rows t ++ [Row (next_row_id t) name None]) (next_row_id t)).
Proof.
  intros Ht. unfold with_row. rewrite Ht. now apply (find_set_table "users" _ db Ht).
Qed.

Lemma next_row_id_bindable (t : table) :
  id_space_full t = false -> bindable_int (next_row_id t) = true.
Proof.
  unfold id_space_full, bindable_int, next_row_id. intros H.
  apply Z.leb_gt in H. pose proof (max_row_id_nonneg (rows t)).
  apply andb_true_iff. split; apply Z.leb_le; unfold min_int; lia.
Qed.

(** A look-up on a connection that has just been opened. *)
Lemma lookup_on_fresh (s : stmt) (bind : option exn) (p : row -> bool) :
  (forall db,
     execute s (Connection db None) =
       match find_table "users" db with
       | None => (Err no_such_table, Connection db None)
       | Some t =>
           match bind with
           | Some e => (Err e, Connection db None)
           | None => (Ok (Cursor 0 (select p t)), Connection db None)
           end
       end) ->
  forall db,
    lookup_block s (Connection db None) =
      (match find_table "users" db with
       | None => Raised no_such_table
       | Some t =>
           match bind with
           | Some e => Raised e
           | None => Returned (first_match p t)
           end
       end, Connection db None, []).
Proof.
  intros Hx db. unfold lookup_block. rewrite Hx.
  destruct (find_table "users" db) as [t|]; [|reflexivity].
  destruct bind; [reflexivity|].
  unfold fetchone, first_match. cbn [pending_rows].
  destruct (select p t) as [|[id name] rest]; reflexivity.
Qed.

Lemma select_by_id_fresh (id : Z) (db : database) :
  execute (SelectUserById id) (Connection db None) =
    match find_table "users" db with
    | None => (Err no_such_table, Connection db None)
    | Some t =>
        match bind_int id with
        | Some e => (Err e, Connection db None)
        | None => (Ok (Cursor 0 (select (has_id id) t)), Connection db None)
        end
    end.
Proof.
  unfold execute, bind_int. cbn [current pending durable].
  destruct (find_table "users" db); [|reflexivity].
  destruct (bindable_int id); reflexivity.
Qed.

Lemma select_by_name_fresh (name : pystr) (db : database) :
  execute (SelectUserByName name) (Connection db None) =
    match find_table "users" db with
    | None => (Err no_such_table, Connection db None)
    | Some t =>
        match bind_str name with
        | Some e => (Err e, Connection db None)
        | None => (Ok (Cursor 0 (select (has_name name) t)), Connection db None)
        end
    end.
Proof.
  unfold execute. cbn [current pending durable].
  destruct (find_table "users" db); [|reflexivity].
  destruct (bind_str name); reflexivity.
Qed.

(** A [with] statement around a look-up: what it returns and what it
    leaves. *)
Lemma lookup_connection (s : stmt) (bind : option exn) (p : row -> bool)
    (path : string) (w : world) :
  (forall db,
     execute s (Connection db None) =
       match find_table "users" db with
       | None => (Err no_such_table, Connection db None)
       | Some t =>
           match bind with
           | Some e => (Err e, Connection db None)
           | None => (Ok (Cursor 0 (select p t)), Connection db None)
           end
       end) ->
  exists w',
    get_db_connection path (lookup_block s) w =
      (match statement_answer bind (fun t => Ok (first_match p t)) path w with
       | Ok v => Returned v
       | Err e => Raised e
       end, w')
    /\ (forall q, files w' q = files w q)
    /\ open_handles w' = open_handles w.
Proof.
  intros Hx. unfold statement_answer.
  destruct (files w path) as [db|] eqn:Hf.
  - pose proof (lookup_on_fresh s bind p Hx db) as Hb.
    destruct (@get_db_connection_run pyval path (lookup_block s) w db _ _ _ Hf Hb)
      as [w' [mid [Hg [Hfiles [Hh _]]]]].
    exists w'. split.
    + rewrite Hg. destruct (find_table "users" db); [destruct bind|]; reflexivity.
    + split; [|exact Hh]. intros q. rewrite Hfiles.
      assert (D : match
                    match find_table "users" db with
                    | Some t => match bind with
                                | Some e => Raised e
                                | None => Returned (first_match p t)
                                end
                    | None => Raised no_such_table
                    end
                  with
                  | Raised _ => durable (Connection db None)
                  | _ => current (Connection db None)
                  end = db).
      { destruct (find_table "users" db); [destruct bind|]; reflexivity. }
      rewrite D. now apply same_file.
  - rewrite get_db_connection_unreachable by exact Hf.
    eexists. split; [reflexivity|]. split; reflexivity.
Qed.

(** [get_user] past its guard. *)
Lemma get_user_answer (user_id : pyval) (path : string) (w : world) :
  isinstance_int user_id = true ->
  (0 < int_value user_id)%Z ->
  exists w',
    get_user user_id path w = (id_answer (int_value user_id) path w, w')
    /\ (forall q, files w' q = files w q)
    /\ open_handles w' = open_handles w.
Proof.
  intros Hi Hpos. unfold get_user. rewrite Hi.
  replace (int_value user_id <=? 0)%Z with false by (symmetry; apply Z.leb_gt; lia).
  cbn [negb orb].
  destruct (@lookup_connection (SelectUserById (int_value user_id))
              (bind_int (int_value user_id)) (has_id (int_value user_id)) path w
              (select_by_id_fresh (int_value user_id)))
    as [w' [-> [Hfiles Hh]]].
  unfold id_answer.
  destruct (statement_answer _ _ path w) as [v | e].
  - exists w'. auto.
  - destruct (is_sqlite_error e); eexists; (split; [reflexivity|]); cbn; auto.
Qed.

(** [get_user_by_name] past its guard. *)
Lemma get_user_by_name_answer (s : pystr) (path : string) (w : world) :
  s <> [] ->
  exists w',
    get_user_by_name (PStr s) path w = (name_answer (strip s) path w, w')
    /\ (forall q, files w' q = files w q)
    /\ open_handles w' = open_handles w.
Proof.
  intros Hs. unfold get_user_by_name.
  replace (truthy (PStr s)) with true by (symmetry; now apply truthy_str).
  cbn [negb isinstance_str orb str_value].
  destruct (@lookup_connection (SelectUserByName (strip s))
              (bind_str (strip s)) (has_name (strip s)) path w
              (select_by_name_fresh (strip s)))
    as [w' [-> [Hfiles Hh]]].
  unfold name_answer.
  destruct (statement_answer _ _ path w) as [v | e].
  - exists w'. auto.
  - destruct (is_sqlite_error e); eexists; (split; [reflexivity|]); cbn; auto.
Qed.

Lemma select_app (p : row -> bool) (rs : list row) (r : row) (s : Z) :
  select p (Table (rs ++ [r]) s)
    = select p (Table rs s) ++ (if p r then [(row_id r, row_name r)] else []).
Proof.
  unfold select. cbn [rows]. rewrite filter_app, map_app. cbn.
  destruct (p r); reflexivity.
Qed.

(** The record of a user just inserted is the answer to [WHERE id = ?]
    for its id. *)
Lemma created_user_first_match (name : pystr) (t : table) :
  first_match (has_id (next_row_id t))
    (Table (rows t ++ [Row (next_row_id t) name None]) (next_row_id t))
    = user_dict (next_row_id t) name.
Proof.
  unfold first_match. rewrite select_app.
  unfold select at 1. cbn [rows]. rewrite filter_none.
  - unfold has_id. cbn [row_id row_name map app]. now rewrite Z.eqb_refl.
  - intros r Hr. unfold has_id. now apply next_row_id_fresh.
Qed.

(** C1: a non-empty trimmed name is stored and read back as data.  When
    [add_user] returns for such a name [n], it returns a positive [int]
    [i]; [get_user] of that value then returns [{"id": i, "name": n}],
    with [n] unchanged whatever characters it holds; and the store still
    has its [users] table, with the row [(i, n)] in it. *)
Theorem add_user_get_user_roundtrip (n : pystr) (path : string) (w w' : world)
    (v : pyval) :
  n <> [] ->
  strip n = n ->
  add_user (PStr n) path w = (Ok v, w') ->
  exists i w'' db t,
    v = PInt i /\ (0 < i)%Z
    /\ get_user v path w' = (Ok (user_dict i n), w'')
    /\ files w'' path = Some db
    /\ find_table "users" db = Some t
    /\ In (Row i n None) (rows t).
Proof.
  intros Hn Hs Hadd.
  destruct (add_user_ok path w Hn Hadd)
    as [db [t [Hf [Ht [_ [Hfull [-> [Hf' _]]]]]]]].
  rewrite Hs in Hf'.
  set (i := next_row_id t) in *.
  assert (Hpos : (0 < i)%Z) by apply next_row_id_positive.
  destruct (@get_user_answer (PInt i) path w' eq_refl Hpos) as [w'' [Hg [Hfiles _]]].
  cbn [int_value] in Hg.
  assert (Ht' := with_row_table n db Ht). fold i in Ht'.
  exists i, w'', (with_row n db), (Table (rows t ++ [Row i n None]) i).
  repeat split; auto.
  - rewrite Hg. unfold id_answer, statement_answer, bind_int.
    rewrite Hf', Ht'. unfold i. rewrite (next_row_id_bindable t Hfull).
    now rewrite created_user_first_match.
  - now rewrite Hfiles.
  - cbn. apply in_or_app. right. now left.
Qed.

(** The name of the injection test, created on a store that holds one
    user: it comes back verbatim under id 2 and the table is still
    there. *)
Lemma add_user_get_user_roundtrip_witness :
  exists w' w'' db t,
    add_user (PStr Sample.drop_table) "secure_app.db"
      (Sample.world_with Sample.one_user) = (Ok (PInt 2), w')
    /\ get_user (PInt 2) "secure_app.db" w'
         = (Ok (user_dict 2 Sample.drop_table), w'')
    /\ files w'' "secure_app.db" = Some db
    /\ find_table "users" db = Some t.
Proof.
  set (r := add_user (PStr Sample.drop_table) "secure_app.db"
              (Sample.world_with Sample.one_user)).
  destruct (@add_user_get_user_roundtrip Sample.drop_table "secure_app.db"
              (Sample.world_with Sample.one_user) (snd r) (PInt 2)
              ltac:(discriminate) eq_refl eq_refl)
    as [i [w'' [db [t [Hv [_ [Hg [Hf [Ht _]]]]]]]]].
  injection Hv as <-.
  exists (snd r), w'', db, t. repeat split; assumption.
Defined.

Lemma first_match_none (p : row -> bool) (t : table) :
  (forall r, In r (rows t) -> p r = false) -> first_match p t = PNone.
Proof.
  intros H. unfold first_match, select. now rewrite (filter_none p (rows t) H).
Qed.

(** The absence contract of [get_user] on the ids SQLite can hold: a
    value that is no [int], or an [int] that is not positive, gives [None]
    and leaves the world untouched; a positive id within 64 bits that no
    row of the table carries gives [None] and the store keeps its
    content; a store that cannot be opened gives the store's error. *)
Lemma get_user_absent_in_range (user_id : pyval) (path : string) (w : world) :
  (isinstance_int user_id = false \/ (int_value user_id <= 0)%Z ->
     get_user user_id path w = (Ok PNone, w))
  /\ (forall db t,
        isinstance_int user_id = true ->
        (0 < int_value user_id <= max_int)%Z ->
        files w path = Some db -> find_table "users" db = Some t ->
        (forall r, In r (rows t) -> row_id r <> int_value user_id) ->
        exists w',
          get_user user_id path w = (Ok PNone, w')
          /\ (forall p, files w' p = files w p)
          /\ open_handles w' = open_handles w)
  /\ (isinstance_int user_id = true -> (0 < int_value user_id)%Z ->
      files w path = None ->
      exists w', get_user user_id path w = (Err cannot_open, w')).
Proof.
  split; [|split].
  - intros H. unfold get_user.
    destruct (isinstance_int user_id) eqn:Hi; [|reflexivity].
    destruct H as [H|H]; [discriminate|].
    apply Z.leb_le in H. now rewrite H.
  - intros db t Hi [Hpos Hmax] Hf Ht Hnone.
    destruct (get_user_answer user_id path w Hi Hpos) as [w' [Hg H]].
    exists w'. split; [|exact H]. rewrite Hg.
    unfold id_answer, statement_answer, bind_int, bindable_int. rewrite Hf, Ht.
    replace ((min_int <=? int_value user_id)%Z && (int_value user_id <=? max_int)%Z)
      with true
      by (symmetry; apply andb_true_iff; split; apply Z.leb_le; unfold min_int; lia).
    rewrite first_match_none; [reflexivity|].
    intros r Hr. apply Z.eqb_neq. now apply Hnone.
  - intros Hi Hpos Hf.
    destruct (get_user_answer user_id path w Hi Hpos) as [w' [Hg _]].
    exists w'. rewrite Hg. unfold id_answer, statement_answer. now rewrite Hf.
Qed.

(** C4, where the code stops short of it: an id above the largest
    SQLite integer is positive and is in no row, yet [get_user] does not
    return [None] for it.  On a store that opens and has its table the id
    passes the guard, fails to bind, and [OverflowError], which is no
    [sqlite3.Error], leaves [get_user]; the store keeps its content. *)
Theorem get_user_overflow (user_id : pyval) (path : string) (w : world)
    (db : database) (t : table) :
  isinstance_int user_id = true ->
  (max_int < int_value user_id)%Z ->
  files w path = Some db ->
  find_table "users" db = Some t ->
  (forall r, In r (rows t) -> row_id r <> int_value user_id) ->
  exists w',
    get_user user_id path w = (Err overflow_error, w')
    /\ is_sqlite_error overflow_error = false
    /\ (forall p, files w' p = files w p)
    /\ open_handles w' = open_handles w.
Proof.
  intros Hi Hbig Hf Ht _.
  assert (Hpos : (0 < int_value user_id)%Z) by (unfold max_int in Hbig; lia).
  destruct (get_user_answer user_id path w Hi Hpos) as [w' [Hg H]].
  exists w'. split; [|split; [reflexivity | exact H]].
  rewrite Hg. unfold id_answer, statement_answer, bind_int, bindable_int.
  rewrite Hf, Ht.
  replace (int_value user_id <=? max_int)%Z with false
    by (symmetry; apply Z.leb_gt; lia).
  now rewrite andb_false_r.
Qed.

(** [get_user(2**63)] on a store whose only user has id 1. *)
Lemma get_user_overflow_witness :
  fst (get_user (PInt 9223372036854775808) "secure_app.db"
         (Sample.world_with Sample.one_user)) = Err overflow_error.
Proof.
  destruct (@get_user_overflow (PInt 9223372036854775808) "secure_app.db"
              (Sample.world_with Sample.one_user) Sample.one_user
              (Table [Row 1 (lit "Alice") None] 1)
              eq_refl eq_refl eq_refl eq_refl) as [w' [-> _]]; [|reflexivity].
  intros r [<- | []]. vm_compute. discriminate.
Defined.

End Repository.

(* ================================================================== *)
(** ** The active set *)
(* ================================================================== *)

Section Heap.

Lemma length_assign (h : heap) (r : ref) (l : list Z) :
  List.length (assign h r l) = List.length h.
Proof.
  revert r. induction h as [|x h IH]; intros [|r]; simpl; auto.
Qed.

Lemma deref_assign_same (h : heap) (r : ref) (l : list Z) :
  (r < List.length h)%nat -> deref (assign h r l) r = l.
Proof.
  unfold deref. revert r. induction h as [|x h IH]; intros [|r] H; simpl in *;
    try lia; auto. apply IH. lia.
Qed.

Lemma deref_assign_other (h : heap) (r r' : ref) (l : list Z) :
  r <> r' -> deref (assign h r l) r' = deref h r'.
Proof.
  unfold deref. revert r r'.
  induction h as [|x h IH]; intros [|r] [|r'] H; simpl; auto; try congruence.
Qed.

Lemma contains_In (x : Z) (l : list Z) : contains x l = true <-> In x l.
Proof.
  unfold contains. rewrite existsb_exists. split.
  - intros [y [Hy E]]. apply Z.eqb_eq in E. now subst.
  - intros H. exists x. split; [exact H | apply Z.eqb_refl].
Qed.

Lemma contains_not_In (x : Z) (l : list Z) : contains x l = false <-> ~ In x l.
Proof.
  rewrite <- contains_In. destruct (contains x l); split; congruence.
Qed.

(** [set_user_active] keeps the heap's size and touches no object but
    [_active_users]. *)
Lemma length_set_user_active (id : Z) (h : heap) :
  List.length (set_user_active id h) = List.length h.
Proof.
  unfold set_user_active, list_pop0, list_append.
  destruct (negb _); destruct (_ <? _)%nat; now rewrite ?length_assign.
Qed.

Lemma set_user_active_frame (id : Z) (h : heap) (r : ref) :
  r <> _active_users -> deref (set_user_active id h) r = deref h r.
Proof.
  intros Hr. unfold set_user_active, list_pop0, list_append.
  destruct (negb _); destruct (_ <? _)%nat;
    rewrite ?deref_assign_other by congruence; reflexivity.
Qed.

(** What [set_user_active] makes of the list. *)
Lemma set_user_active_deref (id : Z) (h : heap) :
  h <> [] ->
  deref (set_user_active id h) _active_users =
    let a := deref h _active_users in
    let a1 := if contains id a then a else a ++ [id] in
    if (5 <? List.length a1)%nat then tl a1 else a1.
Proof.
  intros Hh. assert (L : (_active_users < List.length h)%nat).
  { destruct h; [congruence | simpl; unfold _active_users; lia]. }
  unfold set_user_active, list_pop0, list_append. cbv zeta.
  destruct (contains id (deref h _active_users)); cbn [negb].
  - destruct (5 <? _)%nat; [|reflexivity]. now rewrite deref_assign_same.
  - set (h1 := assign h _active_users (deref h _active_users ++ [id])).
    assert (E : deref h1 _active_users = deref h _active_users ++ [id])
      by (unfold h1; now rewrite deref_assign_same).
    rewrite E. destruct (5 <? _)%nat; [|exact E].
    apply deref_assign_same. unfold h1. now rewrite length_assign.
Qed.

Lemma mark_all_snoc (ids : list Z) (id : Z) (h : heap) :
  mark_all (ids ++ [id]) h = set_user_active id (mark_all ids h).
Proof. unfold mark_all. now rewrite fold_left_app. Qed.

Lemma length_mark_all (ids : list Z) (h : heap) :
  List.length (mark_all ids h) = List.length h.
Proof.
  revert h. induction ids as [|id ids IH]; intros h; [reflexivity|].
  unfold mark_all in *. simpl. now rewrite IH, length_set_user_active.
Qed.

Lemma mark_all_frame (ids : list Z) (h : heap) (r : ref) :
  r <> _active_users -> deref (mark_all ids h) r = deref h r.
Proof.
  intros Hr. revert h. induction ids as [|id ids IH]; intros h; [reflexivity|].
  unfold mark_all in *. simpl. now rewrite IH, set_user_active_frame.
Qed.

Lemma insert_log_snoc (ids : list Z) (id : Z) (h : heap) :
  insert_log (ids ++ [id]) h =
    insert_log ids h
      ++ (if contains id (deref (mark_all ids h) _active_users) then [] else [id]).
Proof.
  revert h. induction ids as [|x ids IH]; intros h; simpl.
  - now rewrite app_nil_r.
  - rewrite IH, app_assoc. reflexivity.
Qed.

End Heap.

Section LastN.

Variable T : Type.

Lemma tl_skipn (n : nat) (l : list T) : tl (skipn n l) = skipn (S n) l.
Proof.
  revert l. induction n as [|n IH]; intros [|x l]; simpl; auto.
Qed.

Lemma length_lastn (k : nat) (l : list T) :
  List.length (lastn k l) = Nat.min k (List.length l).
Proof. unfold lastn. rewrite length_skipn. lia. Qed.

Lemma lastn_short (k : nat) (l : list T) :
  (List.length l <= k)%nat -> lastn k l = l.
Proof.
  intros H. unfold lastn. replace (List.length l - k)%nat with 0%nat by lia.
  reflexivity.
Qed.

Lemma In_lastn (k : nat) (l : list T) (x : T) : In x (lastn k l) -> In x l.
Proof.
  unfold lastn. generalize (List.length l - k)%nat. intros n. revert l.
  induction n as [|n IH]; intros [|y l]; simpl; auto.
Qed.

(** Appending to the last [k] and dropping the oldest when that makes
    more than [k]: the last [k] of the longer list. *)
Lemma lastn_push (k : nat) (l : list T) (x : T) :
  lastn k (l ++ [x]) =
    let a1 := lastn k l ++ [x] in
    if (k <? List.length a1)%nat then tl a1 else a1.
Proof.
  cbv zeta. rewrite length_app, length_lastn. simpl List.length.
  destruct (k <? Nat.min k (List.length l) + 1)%nat eqn:E.
  - apply Nat.ltb_lt in E. assert (Hk : (k <= List.length l)%nat) by lia.
    destruct (Nat.eq_dec k 0) as [-> | Hk0].
    { unfold lastn. rewrite !Nat.sub_0_r, !skipn_all. reflexivity. }
    unfold lastn. rewrite length_app. simpl List.length.
    replace (List.length l + 1 - k)%nat with (S (List.length l - k)) by lia.
    rewrite skipn_app.
    replace (S (List.length l - k) - List.length l)%nat with 0%nat by lia.
    simpl skipn at 2.
    destruct (skipn (List.length l - k) l) as [|y s] eqn:S.
    + apply (f_equal (@List.length T)) in S. rewrite length_skipn in S.
      simpl in S. lia.
    + rewrite <- tl_skipn, S. reflexivity.
  - apply Nat.ltb_ge in E. assert (Hk : (List.length l < k)%nat) by lia.
    rewrite !lastn_short; auto; [lia|]. rewrite length_app. simpl. lia.
Qed.

End LastN.

Section ActiveSet.

Lemma NoDup_tl (l : list Z) : NoDup l -> NoDup (tl l).
Proof. intros H. destruct l; [exact H | now inversion H]. Qed.

Lemma NoDup_snoc (l : list Z) (x : Z) : NoDup l -> ~ In x l -> NoDup (l ++ [x]).
Proof.
  intros Hl Hx. apply NoDup_app; auto.
  - constructor; [tauto | constructor].
  - intros y Hy [<- | []]. contradiction.
Qed.

(** The state after any run from the empty collection. *)
Lemma mark_all_invariant (ids : list Z) :
  let a := deref (mark_all ids initial_heap) _active_users in
  mark_all ids initial_heap <> []
  /\ (List.length a <= 5)%nat
  /\ NoDup a
  /\ a = lastn 5 (insert_log ids initial_heap).
Proof.
  cbv zeta.
  assert (Hne : forall l, mark_all l initial_heap <> []).
  { intros l E. apply (f_equal (@List.length _)) in E.
    rewrite length_mark_all in E. discriminate. }
  split; [apply Hne|].
  induction ids as [|x ids IH] using rev_ind.
  - repeat split; [simpl; lia | constructor].
  - destruct IH as [Hlen [Hnd Ha]].
    rewrite mark_all_snoc, insert_log_snoc, set_user_active_deref by apply Hne.
    cbv zeta.
    set (a := deref (mark_all ids initial_heap) _active_users) in *.
    destruct (contains x a) eqn:C.
    + replace (5 <? List.length a)%nat with false
        by (symmetry; apply Nat.ltb_ge; lia).
      rewrite app_nil_r. auto.
    + apply contains_not_In in C.
      assert (Hpush : (if (5 <? List.length (a ++ [x]))%nat
                       then tl (a ++ [x]) else a ++ [x])
                      = lastn 5 (insert_log ids initial_heap ++ [x])).
      { rewrite lastn_push. cbv zeta. now rewrite <- Ha. }
      split; [|split].
      * rewrite Hpush, length_lastn. lia.
      * destruct (5 <? _)%nat; [apply NoDup_tl|]; now apply NoDup_snoc.
      * exact Hpush.
Qed.

(** C5: after any sequence of [set_user_active] calls from the empty
    collection, [_active_users] holds at most 5 ids, no id twice, and the
    ids are the last appended ones in the order they were appended.  A
    call with an id that is present changes nothing at all; a call with an
    id that is absent appends it, and drops the element at index 0 when
    the list was full. *)
Theorem active_set_invariant (ids : list Z) :
  let h := mark_all ids initial_heap in
  let a := deref h _active_users in
  (List.length a <= 5)%nat
  /\ NoDup a
  /\ a = lastn 5 (insert_log ids initial_heap)
  /\ (forall id, In id a -> set_user_active id h = h)
  /\ (forall id, ~ In id a ->
        deref (set_user_active id h) _active_users
          = if (List.length a <? 5)%nat then a ++ [id] else tl a ++ [id]).
Proof.
  cbv zeta. destruct (mark_all_invariant ids) as [Hne [Hlen [Hnd Ha]]].
  cbv zeta in *.
  set (h := mark_all ids initial_heap) in *.
  set (a := deref h _active_users) in *.
  repeat split; auto.
  - intros id Hin. apply contains_In in Hin.
    unfold set_user_active. fold a. rewrite Hin. cbn [negb]. fold a.
    replace (5 <? List.length a)%nat with false
      by (symmetry; apply Nat.ltb_ge; lia).
    reflexivity.
  - intros id Hout. apply contains_not_In in Hout.
    rewrite set_user_active_deref by exact Hne. cbv zeta. fold a.
    rewrite Hout, length_app. simpl List.length.
    destruct (List.length a <? 5)%nat eqn:E.
    + apply Nat.ltb_lt in E.
      replace (5 <? List.length a + 1)%nat with false
        by (symmetry; apply Nat.ltb_ge; lia).
      reflexivity.
    + apply Nat.ltb_ge in E.
      replace (5 <? List.length a + 1)%nat with true
        by (symmetry; apply Nat.ltb_lt; lia).
      destruct a; [simpl in E; lia | reflexivity].
Qed.

(** After nine calls, two of them repeats: a present id is a no-op. *)
Lemma active_set_invariant_witness :
  deref (mark_all [1; 2; 3; 2; 4; 5; 6; 1; 7]%Z initial_heap) _active_users
    = lastn 5 [1; 2; 3; 4; 5; 6; 1; 7]%Z
  /\ set_user_active 7 (mark_all [1; 2; 3; 2; 4; 5; 6; 1; 7]%Z initial_heap)
       = mark_all [1; 2; 3; 2; 4; 5; 6; 1; 7]%Z initial_heap.
Proof.
  destruct (active_set_invariant [1; 2; 3; 2; 4; 5; 6; 1; 7]%Z)
    as [_ [_ [H3 [H4 _]]]].
  split; [exact H3|]. apply H4. vm_compute. tauto.
Defined.

(** Pairwise distinct ids are all appended. *)
Lemma insert_log_distinct (ids : list Z) :
  NoDup ids -> insert_log ids initial_heap = ids.
Proof.
  induction ids as [|x ids IH] using rev_ind; [reflexivity|].
  intros Hnd. assert (Hx : ~ In x ids).
  { pose proof (NoDup_remove_2 ids [] x Hnd) as H. now rewrite app_nil_r in H. }
  assert (Hids : NoDup ids).
  { pose proof (NoDup_remove_1 ids [] x Hnd) as H. now rewrite app_nil_r in H. }
  rewrite insert_log_snoc, (IH Hids).
  destruct (mark_all_invariant ids) as [_ [_ [_ Ha]]]. cbv zeta in Ha.
  rewrite (IH Hids) in Ha.
  replace (contains x (deref (mark_all ids initial_heap) _active_users)) with false;
    [reflexivity|].
  symmetry. apply contains_not_In. rewrite Ha. intros H.
  apply In_lastn in H. contradiction.
Qed.

(** C6: more than 5 calls with pairwise distinct ids, in the order the
    lock serializes them, leave exactly the 5 ids of the last 5 calls, in
    the order of the calls. *)
Theorem active_set_fifo (ids : list Z) :
  NoDup ids ->
  (5 < List.length ids)%nat ->
  deref (mark_all ids initial_heap) _active_users
    = skipn (List.length ids - 5) ids
  /\ List.length (deref (mark_all ids initial_heap) _active_users) = 5%nat.
Proof.
  intros Hnd Hlen.
  destruct (mark_all_invariant ids) as [_ [_ [_ Ha]]]. cbv zeta in Ha.
  rewrite (insert_log_distinct Hnd) in Ha. rewrite Ha.
  split; [reflexivity|]. rewrite length_lastn. lia.
Qed.

Lemma active_set_fifo_witness :
  deref (mark_all [10; 20; 30; 40; 50; 60; 70]%Z initial_heap) _active_users
    = [30; 40; 50; 60; 70]%Z.
Proof.
  apply (active_set_fifo (ids := [10; 20; 30; 40; 50; 60; 70]%Z)).
  - repeat (constructor; [vm_compute; intuition discriminate|]). constructor.
  - simpl. lia.
Defined.

(** C9: [get_active_users] returns a reference to a new list object that
    holds the ids of [_active_users] in their order at the moment of the
    call.  Calls of [set_user_active] made afterwards leave the returned
    list as it was, and whatever the caller puts in the returned list
    leaves [_active_users] as it was. *)
Theorem get_active_users_defensive_copy (h : heap) :
  h <> [] ->
  let (r, h') := get_active_users h in
  deref h' r = deref h _active_users
  /\ deref h' _active_users = deref h _active_users
  /\ r <> _active_users
  /\ (forall ids, deref (mark_all ids h') r = deref h' r)
  /\ (forall l, deref (assign h' r l) _active_users = deref h' _active_users).
Proof.
  intros Hh. unfold get_active_users, list_copy, alloc.
  assert (Hr : List.length h <> _active_users).
  { destruct h; [congruence | discriminate]. }
  repeat split.
  - unfold deref at 1. rewrite app_nth2 by lia. now rewrite Nat.sub_diag.
  - unfold deref. apply app_nth1. unfold _active_users in *. lia.
  - exact Hr.
  - intros ids. now apply mark_all_frame.
  - intros l. now apply deref_assign_other.
Qed.

(** A snapshot taken after three calls survives a fourth call, and
    clearing the snapshot does not clear the active set. *)
Lemma get_active_users_defensive_copy_witness :
  let h := mark_all [1; 2; 3]%Z initial_heap in
  let (r, h') := get_active_users h in
  deref (set_user_active 4 h') r = [1; 2; 3]%Z
  /\ deref (set_user_active 4 h') _active_users = [1; 2; 3; 4]%Z
  /\ deref (assign h' r []) _active_users = [1; 2; 3]%Z.
Proof.
  pose proof (@get_active_users_defensive_copy (mark_all [1; 2; 3]%Z initial_heap)
                ltac:(vm_compute; discriminate)) as H.
  cbv zeta.
  destruct (get_active_users (mark_all [1; 2; 3]%Z initial_heap)) as [r h'] eqn:E.
  destruct H as [H1 [H2 [H3 [H4 H5]]]].
  split; [|split].
  - change (set_user_active 4 h') with (mark_all [4%Z] h').
    rewrite (H4 [4%Z]). rewrite H1. reflexivity.
  - vm_compute in E. injection E as <- <-. reflexivity.
  - rewrite H5, H2. reflexivity.
Defined.

End ActiveSet.

(* ================================================================== *)
(** ** More on the repository: look-ups, ids, failures *)
(* ================================================================== *)

Section RepositoryMore.

Lemma all_whitespace_strip (s : pystr) : all_whitespace s = true -> strip s = [].
Proof.
  intros H. unfold strip. replace (lstrip s) with (@nil N); [reflexivity|].
  induction s as [|c s IH]; [reflexivity|]. simpl in *.
  apply andb_true_iff in H. destruct H as [Hc Hs]. rewrite Hc. auto.
Qed.

Lemma user_rows_found (path : string) (w : world) (db : database) (t : table) :
  files w path = Some db -> find_table "users" db = Some t ->
  user_rows path w = rows t.
Proof. intros Hf Ht. unfold user_rows. now rewrite Hf, Ht. Qed.

Lemma user_rows_same_files (path : string) (w w' : world) :
  (forall q, files w' q = files w q) -> user_rows path w' = user_rows path w.
Proof. intros H. unfold user_rows. now rewrite H. Qed.

Lemma user_rows_with_row (path : string) (w : world) (name : pystr)
    (db : database) (t : table) :
  files w path = Some (with_row name db) ->
  find_table "users" db = Some t ->
  user_rows path w = rows t ++ [Row (next_row_id t) name None].
Proof.
  intros Hf Ht. unfold user_rows. now rewrite Hf, (with_row_table name db Ht).
Qed.

(** A successful [add_user] on a store: the statement it ran answered. *)
Lemma add_user_succeeds (n : pystr) (path : string) (w : world)
    (db : database) (t : table) :
  n <> [] ->
  files w path = Some db ->
  find_table "users" db = Some t ->
  storable (strip n) = true ->
  id_space_full t = false ->
  exists w',
    add_user (PStr n) path w = (Ok (PInt (next_row_id t)), w')
    /\ files w' path = Some (with_row (strip n) db)
    /\ (forall q, q <> path -> files w' q = files w q)
    /\ open_handles w' = open_handles w.
Proof.
  intros Hn Hf Ht Hb Hfull.
  destruct (add_user_run path w Hn) as [w' [E [Hh Hfiles]]].
  pose proof (insert_answer_storable (strip n) path w Hf Ht Hb Hfull) as Ha.
  rewrite Ha in E, Hfiles. exists w'. repeat split; auto.
  - rewrite Hfiles, String.eqb_refl, Hf. reflexivity.
  - intros q Hq. rewrite Hfiles. apply String.eqb_neq in Hq. now rewrite Hq.
Qed.

(** X1: on a store that opens and has its [users] table, [add_user] of a
    non-empty string succeeds whenever the store can take the trimmed
    name (it holds no surrogate and its UTF-8 encoding fits a row) and
    the table has not used up its ids: it returns a positive id greater
    than the id of every row present, appends the row with the trimmed
    name after the rows that were there, and touches no other file. *)
Theorem add_user_appends_row (s : pystr) (path : string) (w : world)
    (db : database) (t : table) :
  s <> [] ->
  files w path = Some db ->
  find_table "users" db = Some t ->
  storable (strip s) = true ->
  id_space_full t = false ->
  exists i w',
    add_user (PStr s) path w = (Ok (PInt i), w')
    /\ (0 < i <= max_int)%Z
    /\ (forall r, In r (rows t) -> (row_id r < i)%Z)
    /\ user_rows path w' = rows t ++ [Row i (strip s) None]
    /\ (forall q, q <> path -> files w' q = files w q)
    /\ open_handles w' = open_handles w.
Proof.
  intros Hs Hf Ht Hb Hfull.
  destruct (add_user_succeeds path w Hs Hf Ht Hb Hfull) as [w' [H [Hf' [Ho Hh]]]].
  exists (next_row_id t), w'. split; [exact H|].
  split.
  { split; [apply next_row_id_positive|].
    pose proof (next_row_id_bindable t Hfull) as B. unfold bindable_int in B.
    apply andb_true_iff in B. destruct B as [_ B]. now apply Z.leb_le in B. }
  split.
  { intros r Hr. apply row_id_le_max in Hr. unfold next_row_id. lia. }
  split; [exact (user_rows_with_row path w' (strip s) db Hf' Ht)|].
  split; assumption.
Qed.

Lemma add_user_appends_row_witness :
  exists w',
    add_user (PStr (lit " Bob ")) "secure_app.db" (Sample.world_with Sample.one_user)
      = (Ok (PInt 2), w')
    /\ user_rows "secure_app.db" w'
         = [Row 1 (lit "Alice") None; Row 2 (lit "Bob") None].
Proof.
  destruct (@add_user_appends_row (lit " Bob ") "secure_app.db"
              (Sample.world_with Sample.one_user) Sample.one_user
              (Table [Row 1 (lit "Alice") None] 1)
              ltac:(discriminate) eq_refl eq_refl eq_refl eq_refl)
    as [i [w' [H1 [_ [_ [H4 _]]]]]].
  exists w'. split.
  - rewrite H1. vm_compute in H1. injection H1 as <- _. reflexivity.
  - rewrite H4. vm_compute in H1. injection H1 as <- _. reflexivity.
Defined.

(** X2: the ids [add_user] hands out grow: of two successful calls on
    the same store, one right after the other, the second returns the
    larger id. *)
Theorem add_user_ids_increase (v1 v2 : pyval) (path : string) (w w1 w2 : world)
    (i1 i2 : Z) :
  add_user v1 path w = (Ok (PInt i1), w1) ->
  add_user v2 path w1 = (Ok (PInt i2), w2) ->
  (i1 < i2)%Z.
Proof.
  intros H1 H2.
  destruct (add_user_returns_str _ _ _ H1) as [n1 [-> Hn1]].
  destruct (add_user_returns_str _ _ _ H2) as [n2 [-> Hn2]].
  destruct (add_user_ok path w Hn1 H1) as [db [t [Hf [Ht [_ [_ [Hi1 [Hf1 _]]]]]]]].
  destruct (add_user_ok path w1 Hn2 H2) as [db1 [t1 [Hf2 [Ht1 [_ [_ [Hi2 _]]]]]]].
  rewrite Hf1 in Hf2. injection Hf2 as <-.
  rewrite (with_row_table (strip n1) db Ht) in Ht1. injection Ht1 as <-.
  injection Hi1 as ->. injection Hi2 as ->.
  unfold next_row_id at 2. cbn [seq rows]. lia.
Qed.

Lemma add_user_ids_increase_witness :
  exists w1 w2,
    add_user (PStr (lit "Bob")) "secure_app.db" (Sample.world_with Sample.one_user)
      = (Ok (PInt 2), w1)
    /\ add_user (PStr (lit "Bob")) "secure_app.db" w1 = (Ok (PInt 3), w2)
    /\ (2 < 3)%Z.
Proof.
  set (r1 := add_user (PStr (lit "Bob")) "secure_app.db"
               (Sample.world_with Sample.one_user)).
  set (r2 := add_user (PStr (lit "Bob")) "secure_app.db" (snd r1)).
  exists (snd r1), (snd r2).
  assert (H1 : r1 = (Ok (PInt 2), snd r1)) by reflexivity.
  assert (H2 : r2 = (Ok (PInt 3), snd r2)) by reflexivity.
  split; [exact H1|]. split; [exact H2|].
  exact (add_user_ids_increase _ _ _ _ H1 H2).
Defined.

Lemma add_user_failure_cases (v : pyval) (path : string) (w w' : world) (e : exn) :
  add_user v path w = (Err e, w') ->
  (forall q, files w' q = files w q) /\ open_handles w' = open_handles w.
Proof.
  intros H.
  assert (G : (exists n, v = PStr n /\ n <> []) \/ w' = w).
  { unfold add_user in H.
    destruct (negb (truthy v) || negb (isinstance_str v)) eqn:Eg.
    - right. now injection H as _ <-.
    - left. apply orb_false_elim in Eg. destruct Eg as [Et Es].
      apply negb_false_iff in Et, Es.
      destruct v; try discriminate. eexists; split; [reflexivity|].
      now apply truthy_str. }
  destruct G as [[n [-> Hn]] | ->]; [|auto].
  destruct (add_user_run path w Hn) as [w1 [E [Hh Hfiles]]].
  rewrite E in H. injection H as Ha <-. rewrite Ha in Hfiles. auto.
Qed.

(** X3: a call of [add_user] that raises, for whatever reason, leaves
    every file as it was and no handle open: a failed creation writes
    nothing. *)
Theorem add_user_failure_writes_nothing (v : pyval) (path : string) (w w' : world)
    (e : exn) :
  add_user v path w = (Err e, w') ->
  (forall q, files w' q = files w q)
  /\ open_handles w' = open_handles w
  /\ user_rows path w' = user_rows path w.
Proof.
  intros H. destruct (add_user_failure_cases v path w H) as [Hf Hh].
  repeat split; auto. now apply user_rows_same_files.
Qed.

Lemma add_user_failure_writes_nothing_witness :
  files (snd (add_user (PStr (lit "Bob")) "secure_app.db" (Sample.world_with [])))
        "secure_app.db" = Some [].
Proof.
  set (r := add_user (PStr (lit "Bob")) "secure_app.db" (Sample.world_with [])).
  destruct (@add_user_failure_writes_nothing (PStr (lit "Bob")) "secure_app.db"
              (Sample.world_with []) (snd r) no_such_table eq_refl) as [H _].
  rewrite H. reflexivity.
Defined.

(** X4: the guard of [add_user] looks at the name before trimming it.  A
    string that holds white space only gets past it, and on a store that
    opens, has its table and has ids left a row with the empty name is
    stored, while [validate_name] turns the same string down. *)
Theorem add_user_whitespace_only_name (s : pystr) (path : string) (w : world)
    (db : database) (t : table) (max_length : Z) :
  s <> [] ->
  all_whitespace s = true ->
  files w path = Some db ->
  find_table "users" db = Some t ->
  id_space_full t = false ->
  exists i w',
    add_user (PStr s) path w = (Ok (PInt i), w')
    /\ user_rows path w' = rows t ++ [Row i [] None]
    /\ Routes.validate_name (PStr s) max_length
         = (false, Some (lit "Name cannot be empty")).
Proof.
  intros Hs Hws Hf Ht Hfull.
  pose proof (all_whitespace_strip s Hws) as Hstrip.
  assert (Hb : storable (strip s) = true) by (now rewrite Hstrip).
  destruct (add_user_succeeds path w Hs Hf Ht Hb Hfull) as [w' [H [Hf' _]]].
  exists (next_row_id t), w'. split; [exact H|]. split.
  - rewrite Hstrip in Hf'. exact (user_rows_with_row path w' [] db Hf' Ht).
  - rewrite (validate_name_str max_length Hs), Hstrip. reflexivity.
Qed.

Lemma add_user_whitespace_only_name_witness :
  exists w',
    add_user (PStr (lit "   ")) "secure_app.db" (Sample.world_with Sample.one_user)
      = (Ok (PInt 2), w')
    /\ user_rows "secure_app.db" w' = [Row 1 (lit "Alice") None; Row 2 [] None].
Proof.
  destruct (@add_user_whitespace_only_name (lit "   ") "secure_app.db"
              (Sample.world_with Sample.one_user) Sample.one_user
              (Table [Row 1 (lit "Alice") None] 1) 255
              ltac:(discriminate) eq_refl eq_refl eq_refl eq_refl)
    as [i [w' [H1 [H2 _]]]].
  exists w'. split.
  - rewrite H1. vm_compute in H1. injection H1 as <- _. reflexivity.
  - rewrite H2. vm_compute in H1. injection H1 as <- _. reflexivity.
Defined.

End RepositoryMore.

Section Lookups.

(** The first match is a row of the table that passes the test. *)
Lemma first_match_row (p : row -> bool) (t : table) :
  first_match p t = PNone
  \/ exists r, In r (rows t) /\ p r = true
               /\ first_match p t = user_dict (row_id r) (row_name r).
Proof.
  unfold first_match, select.
  destruct (filter p (rows t)) as [|r rest] eqn:E; [now left|].
  right. exists r.
  assert (Hin : In r (filter p (rows t))) by (rewrite E; now left).
  apply filter_In in Hin. destruct Hin as [H1 H2]. cbn. auto.
Qed.

(** When a look-up answers, the store opened, had its table and the key
    was bound. *)
Lemma statement_answer_ok (bind : option exn) (p : row -> bool) (path : string)
    (w : world) (v : pyval) :
  statement_answer bind (fun t => Ok (first_match p t)) path w = Ok v ->
  exists db t,
    files w path = Some db /\ find_table "users" db = Some t
    /\ bind = None /\ v = first_match p t.
Proof.
  unfold statement_answer.
  destruct (files w path) as [db|] eqn:Hf; [|discriminate].
  destruct (find_table "users" db) as [t|] eqn:Ht; [|discriminate].
  destruct bind; [discriminate|].
  intros H. injection H as <-. exists db, t. auto.
Qed.



(** X6: the absence contract of [get_user_by_name].  A falsy value or a
    value that is no [str] gives [None] and leaves the world untouched; a
    name that, trimmed, binds (it holds no surrogate and its UTF-8
    encoding has at most [SQLITE_MAX_LENGTH] bytes) and that no row of
    the table carries gives [None] and leaves every file as it was. *)
Theorem get_user_by_name_absent (name : pyval) (path : string) (w : world) :
  (truthy name = false \/ isinstance_str name = false ->
     get_user_by_name name path w = (Ok PNone, w))
  /\ (forall s db t,
        name = PStr s -> s <> [] ->
        bindable_str (strip s) = true ->
        files w path = Some db -> find_table "users" db = Some t ->
        (forall r, In r (rows t) -> row_name r <> strip s) ->
        exists w',
          get_user_by_name name path w = (Ok PNone, w')
          /\ (forall q, files w' q = files w q)
          /\ open_handles w' = open_handles w).
Proof.
  split.
  - intros [H | H]; unfold get_user_by_name; rewrite H; cbn.
    + reflexivity.
    + now rewrite orb_true_r.
  - intros s db t -> Hs Hb Hf Ht Hno.
    destruct (get_user_by_name_answer path w Hs) as [w' [Hg H]].
    exists w'. split; [|exact H]. rewrite Hg.
    unfold name_answer, statement_answer. rewrite Hf, Ht, (bindable_bind _ Hb).
    rewrite first_match_none; [reflexivity|]. intros r Hr. unfold has_name.
    destruct (pystr_eqb (row_name r) (strip s)) eqn:E; [|reflexivity].
    apply pystr_eqb_eq in E. elim (Hno r Hr E).
Qed.

Lemma get_user_by_name_absent_witness :
  get_user_by_name (PStr []) "secure_app.db" (Sample.world_with Sample.one_user)
    = (Ok PNone, Sample.world_with Sample.one_user)
  /\ fst (get_user_by_name (PStr (lit "Bob")) "secure_app.db"
            (Sample.world_with Sample.one_user)) = Ok PNone.
Proof.
  split.
  - apply (get_user_by_name_absent (PStr []) "secure_app.db"
             (Sample.world_with Sample.one_user)).
    left. reflexivity.
  - destruct (get_user_by_name_absent (PStr (lit "Bob")) "secure_app.db"
                (Sample.world_with Sample.one_user)) as [_ H].
    destruct (H (lit "Bob") Sample.one_user (Table [Row 1 (lit "Alice") None] 1)
                eq_refl ltac:(discriminate) eq_refl eq_refl eq_refl) as [w' [-> _]];
      [|reflexivity].
    intros r [<- | []]. vm_compute. discriminate.
Defined.

(** X7: the two look-ups never write.  Whatever they are given and
    whatever they return or raise, every file has the content it had and
    no handle stays open. *)
Theorem lookups_never_write (key : pyval) (path : string) (w : world) :
  ((forall q, files (snd (get_user key path w)) q = files w q)
   /\ open_handles (snd (get_user key path w)) = open_handles w)
  /\ ((forall q, files (snd (get_user_by_name key path w)) q = files w q)
      /\ open_handles (snd (get_user_by_name key path w)) = open_handles w).
Proof.
  split.
  - destruct (negb (isinstance_int key) || (int_value key <=? 0)%Z) eqn:G.
    + unfold get_user. rewrite G. auto.
    + apply orb_false_elim in G. destruct G as [Gi Gp].
      apply negb_false_iff in Gi. apply Z.leb_gt in Gp.
      destruct (get_user_answer key path w Gi Gp) as [w' [-> H]]. exact H.
  - destruct (negb (truthy key) || negb (isinstance_str key)) eqn:G.
    + unfold get_user_by_name. rewrite G. auto.
    + apply orb_false_elim in G. destruct G as [Gt Gs].
      apply negb_false_iff in Gt, Gs.
      destruct key; try discriminate. apply truthy_str in Gt.
      destruct (get_user_by_name_answer path w Gt) as [w' [-> H]]. exact H.
Qed.

(** X8: a look-up answers with a stored row or with nothing.  When
    [get_user] returns, it returns [None] or the record of a row of the
    table whose id is the one asked for; when [get_user_by_name] returns,
    it returns [None] or the record of a row whose name is the one asked
    for, trimmed. *)
Theorem lookups_return_stored_rows (key v : pyval) (path : string) (w w' : world) :
  (get_user key path w = (Ok v, w') ->
     v = PNone
     \/ exists r, In r (user_rows path w) /\ row_id r = int_value key
                  /\ v = user_dict (row_id r) (row_name r))
  /\ (get_user_by_name key path w = (Ok v, w') ->
        v = PNone
        \/ exists r, In r (user_rows path w) /\ row_name r = strip (str_value key)
                     /\ v = user_dict (row_id r) (row_name r)).
Proof.
  split; intros H.
  - destruct (negb (isinstance_int key) || (int_value key <=? 0)%Z) eqn:G.
    + unfold get_user in H. rewrite G in H. left. now injection H as <- _.
    + apply orb_false_elim in G. destruct G as [Gi Gp].
      apply negb_false_iff in Gi. apply Z.leb_gt in Gp.
      destruct (get_user_answer key path w Gi Gp) as [w1 [E _]].
      rewrite E in H. injection H as Ha _.
      destruct (statement_answer_ok _ _ _ _ Ha) as [db [t [Hf [Ht [_ ->]]]]].
      rewrite (user_rows_found path w Hf Ht).
      destruct (first_match_row (has_id (int_value key)) t) as [-> | [r [Hin [Hp Hr]]]];
        [now left|].
      right. exists r. repeat split; auto. now apply Z.eqb_eq in Hp.
  - destruct (negb (truthy key) || negb (isinstance_str key)) eqn:G.
    + unfold get_user_by_name in H. rewrite G in H. left. now injection H as <- _.
    + apply orb_false_elim in G. destruct G as [Gt Gs].
      apply negb_false_iff in Gt, Gs.
      destruct key; try discriminate. apply truthy_str in Gt.
      destruct (get_user_by_name_answer path w Gt) as [w1 [E _]].
      rewrite E in H. injection H as Ha _.
      destruct (statement_answer_ok _ _ _ _ Ha) as [db [t [Hf [Ht [_ ->]]]]].
      rewrite (user_rows_found path w Hf Ht). cbn [str_value].
      destruct (first_match_row (has_name (strip s)) t) as [-> | [r [Hin [Hp Hr]]]];
        [now left|].
      right. exists r. repeat split; auto. now apply pystr_eqb_eq in Hp.
Qed.

Lemma lookups_return_stored_rows_witness :
  exists r, In r (user_rows "secure_app.db" (Sample.world_with Sample.one_user))
            /\ row_id r = 1%Z
            /\ user_dict 1 (lit "Alice") = user_dict (row_id r) (row_name r).
Proof.
  destruct (@lookups_return_stored_rows (PInt 1) (user_dict 1 (lit "Alice"))
              "secure_app.db" (Sample.world_with Sample.one_user)
              (snd (get_user (PInt 1) "secure_app.db"
                      (Sample.world_with Sample.one_user)))) as [H _].
  destruct (H eq_refl) as [E | G]; [discriminate | exact G].
Defined.

End Lookups.

Section StoreEvolution.

Lemma first_match_app_miss (p : row -> bool) (rs : list row) (r : row) (s s' : Z) :
  p r = false ->
  first_match p (Table (rs ++ [r]) s) = first_match p (Table rs s').
Proof.
  intros H. unfold first_match. rewrite select_app, H, app_nil_r. reflexivity.
Qed.

(** What a successful [add_user] leaves in the file. *)
Lemma add_user_written (v : pyval) (path : string) (w w' : world) (i : Z) :
  add_user v path w = (Ok (PInt i), w') ->
  exists db t,
    files w path = Some db /\ find_table "users" db = Some t
    /\ i = next_row_id t
    /\ id_space_full t = false
    /\ storable (strip (str_value v)) = true
    /\ files w' path = Some (with_row (strip (str_value v)) db).
Proof.
  intros H. destruct (add_user_returns_str _ _ _ H) as [n [-> Hn]].
  destruct (add_user_ok path w Hn H) as [db [t [Hf [Ht [Hb [Hfull [Hi [Hw _]]]]]]]].
  injection Hi as ->. exists db, t. cbn [str_value]. repeat split; assumption.
Qed.

(** X9: creating a user changes no other look-up.  After a successful
    [add_user] that returned id [i] for the stored name [n], [get_user] of
    any other id and [get_user_by_name] of any other name answer what they
    answered before. *)
Theorem add_user_keeps_other_lookups (v key : pyval) (path : string) (w w' : world)
    (i : Z) :
  add_user v path w = (Ok (PInt i), w') ->
  (int_value key <> i ->
     fst (get_user key path w') = fst (get_user key path w))
  /\ (strip (str_value key) <> strip (str_value v) ->
        fst (get_user_by_name key path w') = fst (get_user_by_name key path w)).
Proof.
  intros Hadd.
  destruct (add_user_written _ _ _ Hadd) as [db [t [Hf [Ht [Hi [_ [_ Hw]]]]]]].
  assert (Hans : forall bind p, p (Row i (strip (str_value v)) None) = false ->
                 statement_answer bind (fun t => Ok (first_match p t)) path w'
                 = statement_answer bind (fun t => Ok (first_match p t)) path w).
  { intros bind p Hp. unfold statement_answer.
    rewrite Hw, Hf, Ht, (with_row_table _ db Ht). rewrite <- Hi.
    destruct bind; [reflexivity|].
    destruct t as [rs sq]. cbn [rows].
    now rewrite (first_match_app_miss p rs _ i sq Hp). }
  split; intros Hne.
  - destruct (negb (isinstance_int key) || (int_value key <=? 0)%Z) eqn:G.
    + unfold get_user. now rewrite G.
    + apply orb_false_elim in G. destruct G as [Gi Gp].
      apply negb_false_iff in Gi. apply Z.leb_gt in Gp.
      destruct (get_user_answer key path w' Gi Gp) as [w1 [-> _]].
      destruct (get_user_answer key path w Gi Gp) as [w2 [-> _]].
      cbn [fst]. apply Hans. unfold has_id. cbn. apply Z.eqb_neq. congruence.
  - destruct (negb (truthy key) || negb (isinstance_str key)) eqn:G.
    + unfold get_user_by_name. now rewrite G.
    + apply orb_false_elim in G. destruct G as [Gt Gs].
      apply negb_false_iff in Gt, Gs.
      destruct key; try discriminate. apply truthy_str in Gt.
      destruct (get_user_by_name_answer path w' Gt) as [w1 [-> _]].
      destruct (get_user_by_name_answer path w Gt) as [w2 [-> _]].
      cbn [fst]. apply Hans. unfold has_name. cbn [row_name].
      destruct (pystr_eqb (strip (str_value v)) (strip s)) eqn:E; [|reflexivity].
      apply pystr_eqb_eq in E. cbn [str_value] in Hne. congruence.
Qed.

Lemma add_user_keeps_other_lookups_witness :
  fst (get_user (PInt 1) "secure_app.db"
         (snd (add_user (PStr (lit "Bob")) "secure_app.db"
                 (Sample.world_with Sample.one_user))))
    = Ok (user_dict 1 (lit "Alice")).
Proof.
  set (r := add_user (PStr (lit "Bob")) "secure_app.db"
              (Sample.world_with Sample.one_user)).
  destruct (@add_user_keeps_other_lookups (PStr (lit "Bob")) (PInt 1) "secure_app.db"
              (Sample.world_with Sample.one_user) (snd r) 2 eq_refl) as [H _].
  rewrite H; [reflexivity | discriminate].
Defined.

(** X10: ids stay unique.  If no two rows of the [users] table share an
    id before a call of [add_user], none do after it, whatever the call
    was given and however it ended. *)
Theorem add_user_keeps_ids_unique (v : pyval) (path : string) (w : world) :
  NoDup (map row_id (user_rows path w)) ->
  NoDup (map row_id (user_rows path (snd (add_user v path w)))).
Proof.
  intros Hnd. destruct (add_user v path w) as [[r | e] w'] eqn:H; cbn [snd].
  - destruct (add_user_returns_str _ _ _ H) as [n [-> Hn]].
    destruct (add_user_ok path w Hn H) as [db [t [Hf [Ht [_ [_ [_ [Hw _]]]]]]]].
    rewrite (user_rows_with_row path w' (strip n) db Hw Ht).
    rewrite (user_rows_found path w Hf Ht) in Hnd.
    rewrite map_app. cbn [map row_id].
    apply NoDup_snoc; [exact Hnd|].
    intros Hin. apply in_map_iff in Hin. destruct Hin as [x [Hx Hin]].
    pose proof (next_row_id_fresh t x Hin) as F. apply Z.eqb_neq in F. contradiction.
  - destruct (add_user_failure_cases v path w H) as [Hfiles _].
    now rewrite (user_rows_same_files path w w' Hfiles).
Qed.

Lemma add_user_keeps_ids_unique_witness :
  NoDup (map row_id (user_rows "secure_app.db"
                       (snd (add_user (PStr (lit "Alice")) "secure_app.db"
                               (Sample.world_with Sample.one_user))))).
Proof.
  apply add_user_keeps_ids_unique.
  vm_compute. constructor; [intros [] | constructor].
Defined.

End StoreEvolution.

Section SchemaMore.

(** X11: initializing a store that already has its [users] table loses
    nothing: [init_db] returns without error and every file, the rows of
    the table included, is as it was. *)
Theorem init_db_keeps_data (path : string) (w : world) (db : database) (t : table) :
  files w path = Some db ->
  find_table "users" db = Some t ->
  exists w',
    init_db path w = (Ok PNone, w')
    /\ (forall q, files w' q = files w q)
    /\ user_rows path w' = rows t
    /\ open_handles w' = open_handles w.
Proof.
  intros Hf Ht.
  destruct (init_db_open path w Hf) as [w' [H [Hfiles Hh]]].
  rewrite (create_users_present db Ht) in Hfiles.
  assert (Hsame : forall q, files w' q = files w q).
  { intros q. rewrite Hfiles. now apply same_file. }
  exists w'. repeat split; auto.
  rewrite (user_rows_same_files path w w' Hsame). now apply user_rows_found with db.
Qed.

Lemma init_db_keeps_data_witness :
  user_rows "secure_app.db"
    (snd (init_db "secure_app.db" (Sample.world_with Sample.one_user)))
    = [Row 1 (lit "Alice") None].
Proof.
  destruct (@init_db_keeps_data "secure_app.db" (Sample.world_with Sample.one_user)
              Sample.one_user (Table [Row 1 (lit "Alice") None] 1) eq_refl eq_refl)
    as [w' [H1 [_ [H3 _]]]].
  rewrite H1. exact H3.
Defined.

(** X12: the first user of a new store.  On a file that opens and holds
    no table yet, [init_db] followed by [add_user(s)] for a non-empty
    string [s] whose trimmed form the store can take (no surrogate, a
    UTF-8 encoding that fits a row) returns id 1; [get_user(1)] and
    [get_user_by_name(s)] then return the record [(1, s trimmed)], and
    [get_user(2)] returns [None]. *)
Theorem first_user_of_new_store (s : pystr) (path : string) (w : world) :
  s <> [] ->
  storable (strip s) = true ->
  files w path = Some [] ->
  exists w1 w2,
    init_db path w = (Ok PNone, w1)
    /\ add_user (PStr s) path w1 = (Ok (PInt 1), w2)
    /\ fst (get_user (PInt 1) path w2) = Ok (user_dict 1 (strip s))
    /\ fst (get_user (PInt 2) path w2) = Ok PNone
    /\ fst (get_user_by_name (PStr s) path w2) = Ok (user_dict 1 (strip s)).
Proof.
  intros Hs Hb Hf.
  destruct (init_db_open path w Hf) as [w1 [Hinit [Hf1 _]]].
  assert (Hp1 : files w1 path = Some [("users"%string, Table [] 0)])
    by (rewrite Hf1; now rewrite String.eqb_refl).
  destruct (@add_user_succeeds s path w1 _ (Table [] 0) Hs Hp1 eq_refl Hb eq_refl)
    as [w2 [Hadd [Hf2 _]]].
  change (with_row (strip s) [("users"%string, Table [] 0)])
    with [("users"%string, Table [Row 1 (strip s) None] 1)] in Hf2.
  exists w1, w2. split; [exact Hinit|]. split; [exact Hadd|].
  assert (Hname : has_name (strip s) (Row 1 (strip s) None) = true)
    by (apply pystr_eqb_eq; reflexivity).
  split; [|split].
  - destruct (@get_user_answer (PInt 1) path w2 eq_refl ltac:(cbn; lia)) as [w3 [-> _]].
    cbn [fst]. unfold id_answer, statement_answer. rewrite Hf2. reflexivity.
  - destruct (@get_user_answer (PInt 2) path w2 eq_refl ltac:(cbn; lia)) as [w3 [-> _]].
    cbn [fst]. unfold id_answer, statement_answer. rewrite Hf2. reflexivity.
  - destruct (get_user_by_name_answer path w2 Hs) as [w3 [-> _]].
    destruct (storable_bind _ Hb) as [Hbind _].
    cbn [fst]. unfold name_answer, statement_answer. rewrite Hf2, Hbind.
    cbn [find_table String.eqb]. cbn.
    unfold first_match, select. cbn [rows filter]. rewrite Hname. reflexivity.
Qed.

Lemma first_user_of_new_store_witness :
  exists w1 w2,
    init_db "secure_app.db" (Sample.world_with []) = (Ok PNone, w1)
    /\ add_user (PStr (lit "Alice")) "secure_app.db" w1 = (Ok (PInt 1), w2)
    /\ fst (get_user (PInt 1) "secure_app.db" w2) = Ok (user_dict 1 (lit "Alice")).
Proof.
  destruct (@first_user_of_new_store (lit "Alice") "secure_app.db"
              (Sample.world_with []) ltac:(discriminate) eq_refl eq_refl)
    as [w1 [w2 [H1 [H2 [H3 _]]]]].
  exists w1, w2. repeat split; assumption.
Defined.

End SchemaMore.

(* ================================================================== *)
(** ** The endpoints *)
(* ================================================================== *)

Section EndpointFacts.

Import Endpoints.

Lemma lifecycle_log (tr : list event) (lvl : level) (msg : pystr) :
  lifecycle (tr ++ [EvLog lvl msg]) = lifecycle tr.
Proof. unfold lifecycle. rewrite filter_app. cbn. apply app_nil_r. Qed.

Lemma lifecycle_app (tr tr' : list event) :
  lifecycle (tr ++ tr') = lifecycle tr ++ lifecycle tr'.
Proof. apply filter_app. Qed.

(** What [validate_name] accepts is a string that is not empty once
    trimmed. *)
Lemma validate_name_accepts (raw : pyval) (m : Z) (msg : option pystr) :
  Routes.validate_name raw m = (true, msg) ->
  exists s, raw = PStr s /\ s <> [] /\ strip s <> [] /\ msg = None.
Proof.
  unfold Routes.validate_name.
  destruct (truthy raw) eqn:T; cbn [negb]; [|discriminate].
  destruct raw as [| b | z | s | l | d]; try discriminate.
  apply truthy_str in T. cbv zeta.
  destruct (strip s) as [|c t] eqn:E; cbn [truthy negb]; [discriminate|].
  destruct (len (c :: t) >? m)%Z; [discriminate|].
  destruct (existsb _ (c :: t)); [discriminate|].
  intros H. inversion H. exists s. repeat split; auto. rewrite E. discriminate.
Qed.

(** The record of a user [add_user] has just created is the answer to
    [WHERE id = ?] for the returned id. *)
Lemma created_user_found (v : pyval) (path : string) (w w' : world) (i : Z) :
  add_user v path w = (Ok (PInt i), w') ->
  (0 < i)%Z
  /\ id_answer i path w' = Ok (user_dict i (strip (str_value v))).
Proof.
  intros H.
  destruct (add_user_written _ _ _ H) as [db [t [Hf [Ht [Hi [Hfull [Hb Hw]]]]]]].
  split; [subst i; apply next_row_id_positive|].
  unfold id_answer, statement_answer, bind_int.
  rewrite Hw, (with_row_table _ db Ht). subst i.
  rewrite (next_row_id_bindable t Hfull).
  now rewrite created_user_first_match.
Qed.

(** [add_user] when the store turns the statement down. *)
Lemma add_user_store_error (n : pystr) (path : string) (w : world) (e : exn) :
  n <> [] ->
  insert_answer (strip n) path w = Err e ->
  exists w',
    add_user (PStr n) path w = (Err e, w')
    /\ (forall q, files w' q = files w q)
    /\ open_handles w' = open_handles w.
Proof.
  intros Hn Ha. destruct (add_user_run path w Hn) as [w' [E [Hh Hfiles]]].
  rewrite Ha in E, Hfiles. exists w'. auto.
Qed.

(** Every way the [INSERT] can fail. *)
Lemma insert_answer_err (name : pystr) (path : string) (w : world) (e : exn) :
  insert_answer name path w = Err e ->
  (e = cannot_open /\ files w path = None)
  \/ (e = no_such_table
      /\ exists db, files w path = Some db /\ find_table "users" db = None)
  \/ (exists db t,
        files w path = Some db /\ find_table "users" db = Some t
        /\ ((e = encode_error name /\ existsb is_surrogate name = true)
            \/ (e = string_overflow_error /\ storable name = false)
            \/ (e = too_big /\ storable name = false)
            \/ (e = database_full /\ id_space_full t = true))).
Proof.
  unfold insert_answer, statement_answer, storable, bindable_str, bind_str.
  destruct (files w path) as [db|] eqn:Hf; [|intros [= <-]; now left].
  destruct (find_table "users" db) as [t|] eqn:Ht;
    [|intros [= <-]; right; left; split; [reflexivity | now exists db]].
  intros H. right. right. exists db, t. split; [reflexivity|]. split; [exact Ht|].
  destruct (existsb is_surrogate name); [injection H as <-; auto|].
  destruct (INT_MAX <? utf8_length name)%Z; [injection H as <-; auto|].
  destruct (SQLITE_MAX_LENGTH <? utf8_length name)%Z; [injection H as <-; auto 6|].
  destruct (id_space_full t); [injection H as <-; auto 6|].
  destruct (row_fits name); [discriminate|].
  injection H as <-. auto 6.
Qed.

(** [add_user] for a name that does not encode to UTF-8: the connection
    is opened, the transaction rolled back, the connection closed. *)
Lemma add_user_unbindable (n : pystr) (path : string) (w : world)
    (db : database) (t : table) :
  n <> [] ->
  files w path = Some db ->
  find_table "users" db = Some t ->
  existsb is_surrogate (strip n) = true ->
  exists w',
    add_user (PStr n) path w = (Err (encode_error (strip n)), w')
    /\ (forall q, files w' q = files w q)
    /\ open_handles w' = open_handles w
    /\ lifecycle (trace w')
         = lifecycle (trace w) ++ [EvConnect path; EvRollback path; EvClose path].
Proof.
  intros Hn Hf Ht Hb. unfold add_user.
  replace (truthy (PStr n)) with true by (symmetry; now apply truthy_str).
  cbn [negb isinstance_str orb str_value]. cbv zeta.
  unfold get_db_connection, connect. rewrite Hf.
  rewrite (insert_on_fresh (strip n) db), Ht. unfold bind_str. rewrite Hb.
  change (is_sqlite_error (encode_error (strip n))) with false.
  change (is_exception (encode_error (strip n))) with true.
  change (is_integrity_error (encode_error (strip n))) with false.
  cbv iota beta. unfold rollback, close, emit, write_file.
  cbn [files open_handles trace durable pred].
  eexists. split; [reflexivity|]. cbn [files open_handles trace].
  split; [|split; [reflexivity|]].
  - intros q. destruct (String.eqb q path) eqn:E; [|reflexivity].
    apply String.eqb_eq in E. now subst q.
  - rewrite !lifecycle_log. rewrite <- !app_assoc. cbn [app].
    rewrite !lifecycle_app.
    reflexivity.
Qed.

(** The ways [create_user] can go: it turns the request down without
    opening a connection, it raises without having done anything, it
    creates the user, the store fails, or the name does not encode. *)
Lemma create_user_cases (cfg : config) (req : request) (w : world) :
  (exists body st,
     fst (create_user cfg req w) = Ok (body, st)
     /\ (st = 400 \/ st = 413)%Z
     /\ files (snd (create_user cfg req w)) = files w
     /\ open_handles (snd (create_user cfg req w)) = open_handles w
     /\ lifecycle (trace (snd (create_user cfg req w))) = lifecycle (trace w))
  \/ (exists e, create_user cfg req w = (Err e, w))
  \/ (exists s i w',
        (exists data, get_json req = Ok data /\ getitem_name data = Ok (PStr s))
        /\ Routes.validate_name (PStr s) (MAX_NAME_LENGTH cfg) = (true, None)
        /\ add_user (PStr (strip s)) (DATABASE_PATH cfg) w = (Ok (PInt i), w')
        /\ fst (create_user cfg req w)
             = Ok (PDict [(lit "id", PInt i); (lit "name", PStr (strip s))], 201%Z)
        /\ files (snd (create_user cfg req w)) = files w'
        /\ open_handles (snd (create_user cfg req w)) = open_handles w')
  \/ ((exists msg,
         fst (create_user cfg req w) = Ok (error_body msg, 500%Z)
         /\ (msg = lit "Database error occurred" \/ msg = lit "Internal server error"))
      /\ (files w (DATABASE_PATH cfg) = None
          \/ (exists db, files w (DATABASE_PATH cfg) = Some db
                         /\ find_table "users" db = None)
          \/ (exists db t, files w (DATABASE_PATH cfg) = Some db
                           /\ find_table "users" db = Some t
                           /\ id_space_full t = true)
          \/ (exists data s, get_json req = Ok data
                             /\ getitem_name data = Ok (PStr s)
                             /\ storable (strip s) = false))
      /\ (forall q, files (snd (create_user cfg req w)) q = files w q)
      /\ open_handles (snd (create_user cfg req w)) = open_handles w)
  \/ (exists s db t,
        (exists data, get_json req = Ok data /\ getitem_name data = Ok (PStr s))
        /\ Routes.validate_name (PStr s) (MAX_NAME_LENGTH cfg) = (true, None)
        /\ files w (DATABASE_PATH cfg) = Some db
        /\ find_table "users" db = Some t
        /\ existsb is_surrogate (strip s) = true
        /\ fst (create_user cfg req w)
             = Ok (error_body (encode_error_message (strip s)), 400%Z)
        /\ (forall q, files (snd (create_user cfg req w)) q = files w q)
        /\ open_handles (snd (create_user cfg req w)) = open_handles w
        /\ lifecycle (trace (snd (create_user cfg req w)))
             = lifecycle (trace w)
               ++ [EvConnect (DATABASE_PATH cfg); EvRollback (DATABASE_PATH cfg);
                   EvClose (DATABASE_PATH cfg)]).
Proof.
  unfold create_user.
  destruct (is_json req); cbn [negb].
  2:{ left. eexists. eexists. cbn [fst snd]. repeat split. now left. }
  destruct (match content_length req with
            | Some n => negb (n =? 0)%Z && (n >? 1024)%Z
            | None => false
            end).
  { left. eexists. eexists. cbn [fst snd]. repeat split. now right. }
  destruct (get_json req) as [data | e] eqn:J.
  2:{ destruct (is_exception e).
      - left. eexists. eexists. cbn [fst snd]. repeat split; [now left|].
        cbn [emit trace]. apply lifecycle_log.
      - right. left. eexists. reflexivity. }
  assert (K : forall d, d = data ->
    let r :=
      match name_in d with
      | Err e => (Err e, w)
      | Ok false => (Ok (error_body (lit "Name is required"), 400%Z), w)
      | Ok true =>
          match getitem_name d with
          | Err e => (Err e, w)
          | Ok raw =>
              let max_length := MAX_NAME_LENGTH cfg in
              let (is_valid, error_msg) := Routes.validate_name raw max_length in
              if negb is_valid then
                (Ok (PDict [(lit "error",
                             match error_msg with Some m => PStr m | None => PNone end)],
                     400%Z), w)
              else
                let name := strip (str_value raw) in
                let database_path := DATABASE_PATH cfg in
                match add_user (PStr name) database_path w with
                | (Ok user_id, w') =>
                    (Ok (PDict [(lit "id", user_id); (lit "name", PStr name)], 201%Z),
                     emit [EvLog INFO (lit "User created successfully: ID="
                                         ++ format_value user_id ++ lit ", name="
                                         ++ prefix 20 name)] w')
                | (Err e, w') =>
                    if is_integrity_error e then
                      (Ok (error_body (lit "User with this name may already exist"), 409%Z),
                       emit [EvLog WARNING (lit "Integrity error creating user: "
                                              ++ exn_msg e)] w')
                    else if is_sqlite_error e then
                      (Ok (error_body (lit "Database error occurred"), 500%Z),
                       emit [EvLog ERROR (lit "Database error creating user: "
                                            ++ exn_msg e)] w')
                    else if is_value_error e then
                      (Ok (error_body (exn_msg e), 400%Z),
                       emit [EvLog WARNING (lit "Validation error: " ++ exn_msg e)] w')
                    else if is_exception e then
                      (Ok (error_body (lit "Internal server error"), 500%Z),
                       emit [EvLog ERROR (lit "Unexpected error creating user: "
                                            ++ exn_msg e)] w')
                    else (Err e, w')
                end
          end
      end in
    (exists body st,
       fst r = Ok (body, st) /\ (st = 400 \/ st = 413)%Z
       /\ files (snd r) = files w /\ open_handles (snd r) = open_handles w
       /\ lifecycle (trace (snd r)) = lifecycle (trace w))
    \/ (exists e, r = (Err e, w))
    \/ (exists s i w',
          (exists data0, Ok data = Ok data0 /\ getitem_name data0 = Ok (PStr s))
          /\ Routes.validate_name (PStr s) (MAX_NAME_LENGTH cfg) = (true, None)
          /\ add_user (PStr (strip s)) (DATABASE_PATH cfg) w = (Ok (PInt i), w')
          /\ fst r = Ok (PDict [(lit "id", PInt i); (lit "name", PStr (strip s))], 201%Z)
          /\ files (snd r) = files w'
          /\ open_handles (snd r) = open_handles w')
    \/ ((exists msg,
           fst r = Ok (error_body msg, 500%Z)
           /\ (msg = lit "Database error occurred" \/ msg = lit "Internal server error"))
        /\ (files w (DATABASE_PATH cfg) = None
            \/ (exists db, files w (DATABASE_PATH cfg) = Some db
                           /\ find_table "users" db = None)
            \/ (exists db t, files w (DATABASE_PATH cfg) = Some db
                             /\ find_table "users" db = Some t
                             /\ id_space_full t = true)
            \/ (exists data0 s, Ok data = Ok data0
                                /\ getitem_name data0 = Ok (PStr s)
                                /\ storable (strip s) = false))
        /\ (forall q, files (snd r) q = files w q)
        /\ open_handles (snd r) = open_handles w)
    \/ (exists s db t,
          (exists data0, Ok data = Ok data0 /\ getitem_name data0 = Ok (PStr s))
          /\ Routes.validate_name (PStr s) (MAX_NAME_LENGTH cfg) = (true, None)
          /\ files w (DATABASE_PATH cfg) = Some db
          /\ find_table "users" db = Some t
          /\ existsb is_surrogate (strip s) = true
          /\ fst r = Ok (error_body (encode_error_message (strip s)), 400%Z)
          /\ (forall q, files (snd r) q = files w q)
          /\ open_handles (snd r) = open_handles w
          /\ lifecycle (trace (snd r))
               = lifecycle (trace w)
                 ++ [EvConnect (DATABASE_PATH cfg); EvRollback (DATABASE_PATH cfg);
                     EvClose (DATABASE_PATH cfg)])).
  { intros d Hd. cbv zeta.
    destruct (name_in d) as [[|] | e].
    2:{ left. eexists. eexists. cbn [fst snd]. repeat split. now left. }
    2:{ right. left. eexists. reflexivity. }
    destruct (getitem_name d) as [raw | e] eqn:G.
    2:{ right. left. eexists. reflexivity. }
    destruct (Routes.validate_name raw (MAX_NAME_LENGTH cfg)) as [valid msg] eqn:V.
    destruct valid; cbn [negb].
    2:{ left. eexists. eexists. cbn [fst snd]. repeat split. now left. }
    destruct (validate_name_accepts _ _ V) as [s [-> [Hs [Hst ->]]]].
    cbn [str_value].
    destruct (insert_answer (strip s) (DATABASE_PATH cfg) w) as [v | e] eqn:Ha.
    - destruct (insert_answer_ok _ _ _ Ha) as [db [t [Hf [Ht [Hsto [Hfull ->]]]]]].
      assert (Hsto' : storable (strip (strip s)) = true)
        by now rewrite strip_idempotent.
      destruct (@add_user_succeeds (strip s) (DATABASE_PATH cfg) w db t
                  Hst Hf Ht Hsto' Hfull) as [w1 [E _]].
      rewrite E. right. right. left.
      exists s, (next_row_id t), w1.
      cbn [fst snd emit files open_handles].
      split; [exists d; subst d; auto|].
      split; [exact V|]. split; [exact E|]. repeat split.
    - assert (Hstore : exists w1,
                add_user (PStr (strip s)) (DATABASE_PATH cfg) w = (Err e, w1)
                /\ (forall q, files w1 q = files w q)
                /\ open_handles w1 = open_handles w).
      { apply add_user_store_error; [exact Hst | now rewrite strip_idempotent]. }
      destruct (insert_answer_err _ _ _ Ha)
        as [[-> Hf] | [[-> [db [Hf Ht]]]
                      | [db [t [Hf [Ht [[-> Hsur] | [[-> Hsto] | [[-> Hsto] | [-> Hfull]]]]]]]]]].
      + destruct Hstore as [w1 [E [Hfiles Hh]]]. rewrite E.
        right. right. right. left. cbn [fst snd emit files open_handles].
        split; [eexists; split; [reflexivity | now left]|].
        split; [now left | split; assumption].
      + destruct Hstore as [w1 [E [Hfiles Hh]]]. rewrite E.
        right. right. right. left. cbn [fst snd emit files open_handles].
        split; [eexists; split; [reflexivity | now left]|].
        split; [right; left; now exists db | split; assumption].
      + clear Hstore.
        assert (Hsur' : existsb is_surrogate (strip (strip s)) = true)
          by now rewrite strip_idempotent.
        destruct (@add_user_unbindable (strip s) (DATABASE_PATH cfg) w db t
                    Hst Hf Ht Hsur') as [w1 [E [Hfiles [Hh Hl]]]].
        rewrite E, strip_idempotent.
        change (is_integrity_error (encode_error (strip s))) with false.
        change (is_sqlite_error (encode_error (strip s))) with false.
        change (is_value_error (encode_error (strip s))) with true.
        cbv iota.
        right. right. right. right. exists s, db, t.
        cbn [fst snd emit files open_handles trace].
        split; [exists d; subst d; auto|].
        split; [exact V|]. split; [exact Hf|]. split; [exact Ht|].
        split; [exact Hsur|]. split; [reflexivity|].
        split; [exact Hfiles|]. split; [exact Hh|].
        now rewrite lifecycle_log.
      + destruct Hstore as [w1 [E [Hfiles Hh]]]. rewrite E.
        right. right. right. left. cbn [fst snd emit files open_handles].
        split; [eexists; split; [reflexivity | now right]|].
        split; [|split; assumption].
        right. right. right. exists d, s. subst d. auto.
      + destruct Hstore as [w1 [E [Hfiles Hh]]]. rewrite E.
        right. right. right. left. cbn [fst snd emit files open_handles].
        split; [eexists; split; [reflexivity | now left]|].
        split; [|split; assumption].
        right. right. right. exists d, s. subst d. auto.
      + destruct Hstore as [w1 [E [Hfiles Hh]]]. rewrite E.
        right. right. right. left. cbn [fst snd emit files open_handles].
        split; [eexists; split; [reflexivity | now left]|].
        split; [|split; assumption].
        right. right. left. exists db, t. auto. }
  destruct data; try exact (K _ eq_refl).
  left. eexists. eexists. cbn [fst snd]. repeat split. now left.
Qed.


(** X13: a request that [create_user] answers with 400 or 413 writes
    nothing: every file is as it was and no handle is open.  No
    connection was opened or closed either, with one exception: a name
    that passes [validate_name] and, trimmed, holds a surrogate code
    point does not encode to UTF-8 and is turned down when it is bound,
    and the answer is 400 with the encoder's message after the connection
    was opened, rolled back and closed. *)
Theorem create_user_rejection_writes_nothing (cfg : config) (req : request)
    (w w' : world) (body : pyval) (st : Z) :
  create_user cfg req w = (Ok (body, st), w') ->
  (st = 400 \/ st = 413)%Z ->
  (forall q, files w' q = files w q)
  /\ open_handles w' = open_handles w
  /\ (lifecycle (trace w') = lifecycle (trace w)
      \/ exists data s,
           get_json req = Ok data
           /\ getitem_name data = Ok (PStr s)
           /\ existsb is_surrogate (strip s) = true
           /\ st = 400%Z
           /\ body = error_body (encode_error_message (strip s))
           /\ lifecycle (trace w')
                = lifecycle (trace w)
                  ++ [EvConnect (DATABASE_PATH cfg); EvRollback (DATABASE_PATH cfg);
                      EvClose (DATABASE_PATH cfg)]).
Proof.
  intros H Hst.
  destruct (create_user_cases cfg req w)
    as [[b [s [H1 [_ [H2 [H3 H4]]]]]]
       | [[e He]
         | [[s [i [w1 [_ [_ [_ [H1 _]]]]]]]
           | [[[msg [H1 _]] _]
             | [s [db [t [[data [J G]] [_ [_ [_ [Hb [H1 [H2 [H3 H4]]]]]]]]]]]]]]];
    rewrite H in *; cbn [fst snd] in *.
  - split; [intros q; now rewrite H2|]. split; [exact H3 | now left].
  - discriminate.
  - injection H1 as _ ->. destruct Hst; discriminate.
  - injection H1 as _ ->. destruct Hst; discriminate.
  - injection H1 as -> ->. split; [exact H2|]. split; [exact H3|].
    right. exists data, s. repeat split; assumption.
Qed.

Lemma create_user_rejection_writes_nothing_witness :
  fst (create_user (Config "secure_app.db" false 255 true "INFO")
         (Request true (Some 20%Z) (Ok (PDict [(lit "name", PStr [55296%N])])))
         (Sample.world_with Sample.one_user))
    = Ok (error_body (encode_error_message [55296%N]), 400%Z)
  /\ files (snd (create_user (Config "secure_app.db" false 255 true "INFO")
                  (Request true (Some 20%Z) (Ok (PDict [(lit "name", PStr [55296%N])])))
                  (Sample.world_with Sample.one_user))) "secure_app.db"
       = Some Sample.one_user.
Proof.
  split; [reflexivity|].
  destruct (@create_user_rejection_writes_nothing
              (Config "secure_app.db" false 255 true "INFO")
              (Request true (Some 20%Z) (Ok (PDict [(lit "name", PStr [55296%N])])))
              (Sample.world_with Sample.one_user) _
              (error_body (encode_error_message [55296%N])) 400%Z eq_refl)
    as [H _]; [now left|].
  rewrite H. reflexivity.
Defined.

(** X14: the answers of [create_user].  When it returns, the status is
    201, 400, 413 or 500, never 409; and it is 500 only when the store
    does not open, has no [users] table, has used up its ids, or cannot
    take the trimmed name (its UTF-8 encoding does not fit a row). *)
Theorem create_user_status_codes (cfg : config) (req : request) (w w' : world)
    (body : pyval) (st : Z) :
  create_user cfg req w = (Ok (body, st), w') ->
  (st = 201 \/ st = 400 \/ st = 413 \/ st = 500)%Z
  /\ (st = 500%Z ->
        files w (DATABASE_PATH cfg) = None
        \/ (exists db, files w (DATABASE_PATH cfg) = Some db
                       /\ find_table "users" db = None)
        \/ (exists db t, files w (DATABASE_PATH cfg) = Some db
                         /\ find_table "users" db = Some t
                         /\ id_space_full t = true)
        \/ (exists data s, get_json req = Ok data
                           /\ getitem_name data = Ok (PStr s)
                           /\ storable (strip s) = false)).
Proof.
  intros H.
  destruct (create_user_cases cfg req w)
    as [[b [s [H1 [Hs _]]]]
       | [[e He]
         | [[s [i [w1 [_ [_ [_ [H1 _]]]]]]]
           | [[[msg [H1 _]] [Hst _]]
             | [s [db [t [_ [_ [_ [_ [_ [H1 _]]]]]]]]]]]]];
    rewrite H in *; cbn [fst snd] in *.
  - injection H1 as _ ->. split; [destruct Hs; subst; auto|].
    intros ->. destruct Hs; discriminate.
  - discriminate.
  - injection H1 as _ ->. split; [auto | discriminate].
  - injection H1 as _ ->. split; auto.
  - injection H1 as _ ->. split; [auto | discriminate].
Qed.

Lemma create_user_status_codes_witness :
  fst (create_user (Config "secure_app.db" false 255 true "INFO")
         (Request true None (Ok (PDict [(lit "name", PStr (lit "Bob"))])))
         (Sample.world_with []))
    = Ok (error_body (lit "Database error occurred"), 500%Z)
  /\ exists db, files (Sample.world_with []) "secure_app.db" = Some db
                /\ find_table "users" db = None.
Proof.
  split; [reflexivity|].
  set (r := create_user (Config "secure_app.db" false 255 true "INFO")
              (Request true None (Ok (PDict [(lit "name", PStr (lit "Bob"))])))
              (Sample.world_with [])).
  destruct (@create_user_status_codes (Config "secure_app.db" false 255 true "INFO")
              (Request true None (Ok (PDict [(lit "name", PStr (lit "Bob"))])))
              (Sample.world_with []) (snd r)
              (error_body (lit "Database error occurred")) 500%Z eq_refl) as [_ H].
  destruct (H eq_refl) as [E | [G | [[db [t [E [F _]]]] | [data [s [J [G E]]]]]]].
  - discriminate.
  - exact G.
  - injection E as <-. discriminate.
  - injection J as <-. injection G as <-. discriminate.
Defined.

(** X15: what [POST /users] created, [GET /users/<id>] returns.  When
    [create_user] answers 201, its body is [{"id": i, "name": n}] with a
    positive [i] and a name [n] that [validate_name] accepts and trimming
    leaves alone, and [get_user_endpoint(i)] then answers 200 with that
    same body. *)
Theorem create_user_then_get_user_endpoint (cfg : config) (req : request)
    (w w' : world) (body : pyval) :
  create_user cfg req w = (Ok (body, 201%Z), w') ->
  exists i n w'',
    body = user_dict i n
    /\ (0 < i)%Z
    /\ strip n = n
    /\ Routes.validate_name (PStr n) (MAX_NAME_LENGTH cfg) = (true, None)
    /\ get_user_endpoint cfg i w' = (Ok (body, 200%Z), w'').
Proof.
  intros H.
  destruct (create_user_cases cfg req w)
    as [[b [s [H1 [Hs _]]]]
       | [[e He]
         | [[s [i [w1 [_ [V [Hadd [H1 [Hf _]]]]]]]]
           | [[[msg [H1 _]] _]
             | [s [db [t [_ [_ [_ [_ [_ [H1 _]]]]]]]]]]]]];
    rewrite H in *; cbn [fst snd] in *.
  - injection H1 as _ <-. destruct Hs; discriminate.
  - discriminate.
  - injection H1 as ->.
    destruct (created_user_found _ _ _ Hadd) as [Hpos Hfound].
    cbn [str_value] in Hfound. rewrite strip_idempotent in Hfound.
    destruct (validate_name_accepts _ _ V) as [s0 [E [Hs [Hst _]]]].
    injection E as <-.
    assert (Hans : id_answer i (DATABASE_PATH cfg) w'
                   = Ok (user_dict i (strip s))).
    { rewrite <- Hfound. unfold id_answer, statement_answer. now rewrite Hf. }
    destruct (@get_user_answer (PInt i) (DATABASE_PATH cfg) w' eq_refl Hpos)
      as [w'' [Hg _]]. cbn [int_value] in Hg. rewrite Hans in Hg.
    exists i, (strip s), w''.
    split; [reflexivity|]. split; [exact Hpos|].
    split; [apply strip_idempotent|].
    split.
    + rewrite (validate_name_str (MAX_NAME_LENGTH cfg) Hst), strip_idempotent.
      rewrite (validate_name_str (MAX_NAME_LENGTH cfg) Hs) in V. exact V.
    + unfold get_user_endpoint.
      replace (i <=? 0)%Z with false by (symmetry; apply Z.leb_gt; lia).
      cbv zeta. rewrite Hg. reflexivity.
  - discriminate.
  - discriminate.
Qed.

Lemma create_user_then_get_user_endpoint_witness :
  exists w' w'',
    create_user (Config "secure_app.db" false 255 true "INFO")
      (Request true (Some 20%Z) (Ok (PDict [(lit "name", PStr (lit "  Bob "))])))
      (Sample.world_with Sample.one_user)
      = (Ok (user_dict 2 (lit "Bob"), 201%Z), w')
    /\ get_user_endpoint (Config "secure_app.db" false 255 true "INFO") 2 w'
         = (Ok (user_dict 2 (lit "Bob"), 200%Z), w'').
Proof.
  set (cfg := Config "secure_app.db" false 255 true "INFO").
  set (req := Request true (Some 20%Z) (Ok (PDict [(lit "name", PStr (lit "  Bob "))]))).
  set (r := create_user cfg req (Sample.world_with Sample.one_user)).
  destruct (@create_user_then_get_user_endpoint cfg req
              (Sample.world_with Sample.one_user) (snd r)
              (user_dict 2 (lit "Bob")) eq_refl)
    as [i [n [w'' [Hb [_ [_ [_ Hg]]]]]]].
  injection Hb as <- _.
  exists (snd r), w''. split; [reflexivity | exact Hg].
Defined.



(** X17: [health_check] answers 200 exactly when the store file opens,
    whether or not it has a [users] table, and 503 otherwise; it always
    returns, writes nothing and leaves no handle open. *)
Theorem health_check_liveness (cfg : config) (w : world) :
  exists body w',
    health_check cfg w
      = (Ok (body, match files w (DATABASE_PATH cfg) with
                   | Some _ => 200%Z
                   | None => 503%Z
                   end), w')
    /\ (forall q, files w' q = files w q)
    /\ open_handles w' = open_handles w.
Proof.
  unfold health_check. cbv zeta.
  match goal with |- context [get_db_connection _ ?b _] => set (blk := b) end.
  destruct (files w (DATABASE_PATH cfg)) as [db|] eqn:Hf.
  - assert (Hb : blk (Connection db None) = (Fallthrough, Connection db None, []))
      by reflexivity.
    destruct (@get_db_connection_run pyval (DATABASE_PATH cfg) blk w db _ _ _ Hf Hb)
      as [w' [mid [Hg [Hfiles [Hh _]]]]].
    rewrite Hg. eexists. exists w'. split; [reflexivity|].
    split; [|exact Hh].
    intros q. rewrite Hfiles. now apply same_file.
  - rewrite get_db_connection_unreachable by exact Hf.
    change (is_exception cannot_open) with true. cbv iota.
    eexists. eexists. split; [reflexivity|]. split; reflexivity.
Qed.

(** X18: a JSON body that is no object creates nothing.  For a list, a
    string, a number, a boolean or [null], [create_user] leaves the world
    exactly as it was, and either answers 400 or 413 or raises. *)
Theorem create_user_non_object_body (cfg : config) (req : request) (w : world)
    (data : pyval) :
  get_json req = Ok data ->
  (forall d, data <> PDict d) ->
  snd (create_user cfg req w) = w
  /\ ((exists e, fst (create_user cfg req w) = Err e)
      \/ exists body st, fst (create_user cfg req w) = Ok (body, st)
                         /\ (st = 400 \/ st = 413)%Z).
Proof.
  intros J Hd. unfold create_user. rewrite J.
  destruct (is_json req); cbn [negb].
  2:{ split; [reflexivity|]. right. eexists. eexists. split; [reflexivity | now left]. }
  destruct (match content_length req with
            | Some n => negb (n =? 0)%Z && (n >? 1024)%Z
            | None => false
            end).
  { split; [reflexivity|]. right. eexists. eexists. split; [reflexivity | now right]. }
  destruct data as [| b | z | s | l | d].
  - split; [reflexivity|]. right. eexists. eexists. split; [reflexivity | now left].
  - split; [reflexivity|]. left. eexists. reflexivity.
  - split; [reflexivity|]. left. eexists. reflexivity.
  - unfold name_in, getitem_name. destruct (is_substring (lit "name") s).
    + split; [reflexivity|]. left. eexists. reflexivity.
    + split; [reflexivity|]. right. eexists. eexists. split; [reflexivity | now left].
  - unfold name_in, getitem_name. destruct (existsb _ l).
    + split; [reflexivity|]. left. eexists. reflexivity.
    + split; [reflexivity|]. right. eexists. eexists. split; [reflexivity | now left].
  - elim (Hd d). reflexivity.
Qed.

Lemma create_user_non_object_body_witness :
  snd (create_user (Config "secure_app.db" false 255 true "INFO")
         (Request true None (Ok (PList [PStr (lit "name")])))
         (Sample.world_with Sample.one_user))
    = Sample.world_with Sample.one_user.
Proof.
  eapply (@create_user_non_object_body (Config "secure_app.db" false 255 true "INFO")
            (Request true None (Ok (PList [PStr (lit "name")])))
            (Sample.world_with Sample.one_user)).
  - reflexivity.
  - discriminate.
Defined.

End EndpointFacts.

(* ================================================================== *)
(** ** The first layered variant next to the hardened one *)
(* ================================================================== *)

Section Variants.

Lemma sqlite_error_is_exception (e : exn) :
  is_sqlite_error e = true -> is_exception e = true.
Proof.
  unfold is_sqlite_error, is_exception. destruct (exn_cls e); auto; discriminate.
Qed.

(** X19: the two connection managers differ in logging only.  For every
    body and every world, the manager of the first variant and the
    hardened manager on ["secure_app.db"] leave the [with] statement the
    same way, with the same files, the same number of open handles and
    the same sequence of connect, commit, rollback and close events. *)
Theorem connection_managers_agree (A : Type) (body : block A) (w : world) :
  let r1 := V1.get_db_connection body w in
  let r2 := Database.get_db_connection V1.DATABASE_PATH body w in
  fst r1 = fst r2
  /\ files (snd r1) = files (snd r2)
  /\ open_handles (snd r1) = open_handles (snd r2)
  /\ lifecycle (trace (snd r1)) = lifecycle (trace (snd r2)).
Proof.
  cbv zeta. unfold V1.get_db_connection, Database.get_db_connection, connect.
  destruct (files w V1.DATABASE_PATH) as [db|] eqn:Hf.
  - destruct (body (Connection db None)) as [[o c] evs].
    destruct o as [| a | e].
    + cbn. auto.
    + cbn. auto.
    + destruct (is_sqlite_error e) eqn:Es.
      * rewrite (sqlite_error_is_exception e Es).
        unfold rollback, close, emit, write_file. cbn [fst snd files open_handles trace].
        repeat split. rewrite !lifecycle_app. cbn. now rewrite ?app_nil_r.
      * destruct (is_exception e).
        -- unfold rollback, close, emit, write_file.
           cbn [fst snd files open_handles trace].
           repeat split. rewrite !lifecycle_app. cbn. now rewrite ?app_nil_r.
        -- cbn. auto.
  - cbn [fst snd emit files open_handles trace]. repeat split.
    now rewrite lifecycle_log.
Qed.

(** The two managers around bodies that differ in what they log only. *)
Lemma managers_agree (A : Type) (b1 b2 : block A) (w : world) :
  (forall c, fst (b1 c) = fst (b2 c)) ->
  fst (V1.get_db_connection b1 w) = fst (get_db_connection V1.DATABASE_PATH b2 w)
  /\ files (snd (V1.get_db_connection b1 w))
       = files (snd (get_db_connection V1.DATABASE_PATH b2 w))
  /\ open_handles (snd (V1.get_db_connection b1 w))
       = open_handles (snd (get_db_connection V1.DATABASE_PATH b2 w)).
Proof.
  intros Hb. unfold V1.get_db_connection, get_db_connection, connect.
  destruct (files w V1.DATABASE_PATH) as [db|] eqn:Hf; [|cbn; auto].
  specialize (Hb (Connection db None)).
  destruct (b1 (Connection db None)) as [[o1 c1] e1].
  destruct (b2 (Connection db None)) as [[o2 c2] e2].
  cbn [fst] in Hb. injection Hb as -> ->.
  destruct o2 as [| a | e]; [cbn; auto | cbn; auto |].
  destruct (is_sqlite_error e) eqn:Es.
  - rewrite (sqlite_error_is_exception e Es). cbn. auto.
  - destruct (is_exception e); cbn; auto.
Qed.

(** What the manager of the first variant returns and leaves on a file
    that opens. *)
Lemma v1_get_db_connection_run (A : Type) (body : block A) (w : world)
    (db : database) (c' : connection) (o : outcome A) (evs : list event) :
  files w V1.DATABASE_PATH = Some db ->
  body (Connection db None) = (o, c', evs) ->
  exists w',
    V1.get_db_connection body w = (o, w')
    /\ (forall q, files w' q =
                  if String.eqb q V1.DATABASE_PATH
                  then Some match o with Raised _ => durable c' | _ => current c' end
                  else files w q)
    /\ open_handles w' = open_handles w.
Proof.
  intros Hf Hb.
  destruct (@managers_agree A body body w (fun c => eq_refl)) as [H1 [H2 H3]].
  destruct (@get_db_connection_run A V1.DATABASE_PATH body w db c' o evs Hf Hb)
    as [w2 [mid [E [Hfiles [Hh _]]]]].
  rewrite E in H1, H2, H3. cbn [fst snd] in H1, H2, H3.
  destruct (V1.get_db_connection body w) as [o1 w1]. cbn [fst snd] in H1, H2, H3.
  subst o1. exists w1. split; [reflexivity|]. split.
  - intros q. rewrite H2. apply Hfiles.
  - now rewrite H3.
Qed.

Lemma fst_leave (r : outcome pyval * world) :
  fst (V1.leave r) = match fst r with
                     | Raised e => Err e
                     | Returned v => Ok v
                     | Fallthrough => Ok PNone
                     end.
Proof. destruct r as [[| v | e] w]; reflexivity. Qed.

Lemma snd_leave (r : outcome pyval * world) : snd (V1.leave r) = snd r.
Proof. destruct r as [[| v | e] w]; reflexivity. Qed.

(** What a look-up of the first variant answers. *)
Lemma v1_lookup_answer (s : stmt) (bind : option exn) (p : row -> bool) (w : world) :
  (forall db,
     execute s (Connection db None) =
       match find_table "users" db with
       | None => (Err no_such_table, Connection db None)
       | Some t =>
           match bind with
           | Some e => (Err e, Connection db None)
           | None => (Ok (Cursor 0 (select p t)), Connection db None)
           end
       end) ->
  fst (V1.leave (V1.get_db_connection (lookup_block s) w))
    = statement_answer bind (fun t => Ok (first_match p t)) V1.DATABASE_PATH w.
Proof.
  intros Hx. rewrite fst_leave.
  destruct (@managers_agree pyval (lookup_block s) (lookup_block s) w
              (fun c => eq_refl)) as [-> _].
  destruct (@lookup_connection s bind p V1.DATABASE_PATH w Hx) as [w' [-> _]].
  cbn [fst]. destruct (statement_answer _ _ _ w); reflexivity.
Qed.

(** What [get_user] and [get_user_by_name] of the first variant answer. *)
Lemma v1_get_user_answer (i : Z) (w : world) :
  fst (V1.get_user i w) = id_answer i V1.DATABASE_PATH w.
Proof. apply v1_lookup_answer. apply select_by_id_fresh. Qed.


(** The hardened [add_user] next to the first variant's on the trimmed
    name. *)
Lemma v1_add_user_agrees (s : pystr) (w : world) :
  s <> [] ->
  fst (V1.add_user (strip s) w) = fst (add_user (PStr s) V1.DATABASE_PATH w)
  /\ files (snd (V1.add_user (strip s) w))
       = files (snd (add_user (PStr s) V1.DATABASE_PATH w))
  /\ open_handles (snd (V1.add_user (strip s) w))
       = open_handles (snd (add_user (PStr s) V1.DATABASE_PATH w)).
Proof.
  intros Hs. unfold V1.add_user, add_user.
  replace (truthy (PStr s)) with true by (symmetry; now apply truthy_str).
  cbn [negb isinstance_str orb str_value]. cbv zeta.
  match goal with |- context [V1.get_db_connection ?b _] => set (b1 := b) end.
  match goal with |- context [Database.get_db_connection _ ?b _] => set (b2 := b) end.
  assert (Hb : forall c, fst (b1 c) = fst (b2 c)).
  { intros c. unfold b1, b2.
    destruct (execute (InsertUser (strip s)) c) as [[cur | e] c']; reflexivity. }
  destruct (@managers_agree pyval b1 b2 w Hb) as [H1 [H2 H3]].
  rewrite fst_leave, snd_leave.
  destruct (V1.get_db_connection b1 w) as [o1 w1].
  destruct (get_db_connection V1.DATABASE_PATH b2 w) as [o2 w2].
  cbn [fst snd] in *. subst o1.
  destruct o2 as [| v | e]; cbn [fst snd]; auto.
  destruct (is_integrity_error e); [cbn; auto|].
  destruct (is_exception e); cbn; auto.
Qed.

(** X20: the hardened [add_user] is the first variant's [add_user] on the
    trimmed name.  For a non-empty string [s], [add_user(s)] on
    ["secure_app.db"] and the first variant's [add_user(s.strip())] give
    the same result and leave the same files and handles; the first
    variant stores its argument as it is. *)
Theorem add_user_variants_agree (s : pystr) (w : world) :
  s <> [] ->
  let r1 := V1.add_user (strip s) w in
  let r2 := add_user (PStr s) V1.DATABASE_PATH w in
  fst r1 = fst r2
  /\ files (snd r1) = files (snd r2)
  /\ open_handles (snd r1) = open_handles (snd r2).
Proof. intros Hs. cbv zeta. now apply v1_add_user_agrees. Qed.

Lemma add_user_variants_agree_witness :
  fst (V1.add_user (lit "Bob") (Sample.world_with Sample.one_user))
    = fst (add_user (PStr (lit "  Bob ")) "secure_app.db"
             (Sample.world_with Sample.one_user)).
Proof.
  destruct (@add_user_variants_agree (lit "  Bob ") (Sample.world_with Sample.one_user)
              ltac:(discriminate)) as [H _].
  exact H.
Defined.

(** [add_user] of the first variant when the store takes the row. *)
Lemma v1_add_user_succeeds (n : pystr) (w : world) (db : database) (t : table) :
  files w V1.DATABASE_PATH = Some db ->
  find_table "users" db = Some t ->
  storable n = true ->
  id_space_full t = false ->
  exists w',
    V1.add_user n w = (Ok (PInt (next_row_id t)), w')
    /\ files w' V1.DATABASE_PATH = Some (with_row n db).
Proof.
  intros Hf Ht Hb Hfull. unfold V1.add_user.
  match goal with |- context [V1.get_db_connection ?b _] => set (body := b) end.
  assert (Hbody : body (Connection db None)
                  = (Returned (PInt (next_row_id t)),
                     Connection db (Some (with_row n db)), [])).
  { destruct (storable_bind n Hb) as [Hbind Hfit].
    unfold body. now rewrite (insert_on_fresh n db), Ht, Hbind, Hfull, Hfit. }
  destruct (@v1_get_db_connection_run pyval body w db _ _ _ Hf Hbody)
    as [w' [-> [Hfiles _]]].
  exists w'. split; [reflexivity|].
  rewrite Hfiles. reflexivity.
Qed.

(** X21: the first variant stores a name verbatim.  On a store that
    opens, has its table and has ids left, its [add_user(n)] for a name
    [n] the store can take (no surrogate, a UTF-8 encoding that fits a
    row) returns an id [i], and its [get_user(i)] returns
    [{"id": i, "name": n}] with [n] untouched, be it empty or surrounded
    by white space. *)
Theorem v1_add_user_get_user_roundtrip (n : pystr) (w : world) (db : database)
    (t : table) :
  files w V1.DATABASE_PATH = Some db ->
  find_table "users" db = Some t ->
  storable n = true ->
  id_space_full t = false ->
  exists i w',
    V1.add_user n w = (Ok (PInt i), w')
    /\ fst (V1.get_user i w') = Ok (user_dict i n).
Proof.
  intros Hf Ht Hb Hfull.
  destruct (v1_add_user_succeeds n w Hf Ht Hb Hfull) as [w' [Hadd Hw]].
  exists (next_row_id t), w'. split; [exact Hadd|].
  rewrite v1_get_user_answer. unfold id_answer, statement_answer, bind_int.
  rewrite Hw, (with_row_table n db Ht), (next_row_id_bindable t Hfull).
  now rewrite created_user_first_match.
Qed.

Lemma v1_add_user_get_user_roundtrip_witness :
  exists i w',
    V1.add_user (lit "  Bob ") (Sample.world_with Sample.one_user) = (Ok (PInt i), w')
    /\ fst (V1.get_user i w') = Ok (user_dict i (lit "  Bob ")).
Proof.
  exact (@v1_add_user_get_user_roundtrip (lit "  Bob ")
           (Sample.world_with Sample.one_user) Sample.one_user
           (Table [Row 1 (lit "Alice") None] 1) eq_refl eq_refl eq_refl eq_refl).
Defined.

(** X22: the guard of the hardened [get_user].  For a positive id the
    two variants return the same result.  For an id that is not positive
    the first variant still queries the store, and raises when the store
    does not open, where the hardened one returns [None] and touches
    nothing. *)
Theorem get_user_variants (i : Z) (w : world) :
  ((0 < i)%Z ->
     fst (V1.get_user i w) = fst (get_user (PInt i) V1.DATABASE_PATH w))
  /\ ((i <= 0)%Z ->
        get_user (PInt i) V1.DATABASE_PATH w = (Ok PNone, w)
        /\ (files w V1.DATABASE_PATH = None ->
              fst (V1.get_user i w) = Err cannot_open)).
Proof.
  split.
  - intros Hpos. rewrite v1_get_user_answer.
    destruct (@get_user_answer (PInt i) V1.DATABASE_PATH w eq_refl Hpos) as [w' [-> _]].
    reflexivity.
  - intros Hle. split.
    + unfold get_user. cbn [isinstance_int negb int_value orb].
      apply Z.leb_le in Hle. now rewrite Hle.
    + intros Hf. rewrite v1_get_user_answer. unfold id_answer, statement_answer.
      now rewrite Hf.
Qed.

Lemma get_user_variants_witness :
  fst (V1.get_user 1 (Sample.world_with Sample.one_user))
    = fst (get_user (PInt 1) "secure_app.db" (Sample.world_with Sample.one_user))
  /\ fst (V1.get_user 0 (World (fun _ => None) 0 [])) = Err cannot_open.
Proof.
  split.
  - destruct (get_user_variants 1 (Sample.world_with Sample.one_user)) as [H _].
    apply H. reflexivity.
  - destruct (get_user_variants 0 (World (fun _ => None) 0 [])) as [_ H].
    destruct (H ltac:(discriminate)) as [_ H']. apply H'. reflexivity.
Defined.

(** X23: what the hardened [create_user] creates, the first variant
    creates too.  When the hardened handler, configured for
    ["secure_app.db"], answers a request with 201, the first variant's
    handler answers the same JSON body with 201 and the same body, and
    leaves the same files. *)
Theorem hardened_create_user_refines_v1 (cfg : config) (req : Endpoints.request)
    (w w' : world) (body : pyval) :
  DATABASE_PATH cfg = V1.DATABASE_PATH ->
  Endpoints.create_user cfg req w = (Ok (body, 201%Z), w') ->
  exists w1,
    V1.create_user (Endpoints.get_json req) w = (Ok (body, 201%Z), w1)
    /\ files w1 = files w'.
Proof.
  intros Hp H.
  destruct (create_user_cases cfg req w)
    as [[b [s [H1 [Hs _]]]]
       | [[e He]
         | [[s [i [w1 [[data [J G]] [V [Hadd [H1 [Hf _]]]]]]]]
           | [[[msg [H1 _]] _]
             | [s [db [t [_ [_ [_ [_ [_ [H1 _]]]]]]]]]]]]];
    rewrite H in *; cbn [fst snd] in *.
  - injection H1 as _ <-. destruct Hs; discriminate.
  - discriminate.
  - injection H1 as ->.
    destruct (validate_name_accepts _ _ V) as [s0 [E [Hs [Hst _]]]].
    injection E as <-.
    unfold V1.create_user. rewrite J.
    destruct data as [| b | z | s1 | l | d]; try discriminate.
    unfold Endpoints.getitem_name in G.
    destruct (Endpoints.dict_get (lit "name") d) as [v|] eqn:D; [|discriminate].
    injection G as ->.
    assert (Hd : truthy (PDict d) = true) by (destruct d; [discriminate | reflexivity]).
    rewrite Hd. cbn [negb]. unfold Endpoints.name_in, Endpoints.getitem_name.
    rewrite D. cbn [isinstance_str negb str_value orb].
    replace (truthy (PStr (strip s))) with true by (symmetry; now apply truthy_str).
    cbn [negb].
    destruct (v1_add_user_agrees w Hst) as [A1 [A2 _]].
    rewrite strip_idempotent, <- Hp, Hadd in A1, A2. cbn [fst snd] in A1, A2.
    destruct (V1.add_user (strip s) w) as [r1 wv]. cbn [fst snd] in A1, A2.
    subst r1. exists wv. split; [reflexivity|]. now rewrite A2, Hf.
  - discriminate.
  - discriminate.
Qed.

Lemma hardened_create_user_refines_v1_witness :
  exists w1,
    V1.create_user (Ok (PDict [(lit "name", PStr (lit "  Bob "))]))
      (Sample.world_with Sample.one_user)
      = (Ok (user_dict 2 (lit "Bob"), 201%Z), w1).
Proof.
  set (cfg := Config "secure_app.db" false 255 true "INFO").
  set (req := Endpoints.Request true (Some 20%Z)
                (Ok (PDict [(lit "name", PStr (lit "  Bob "))]))).
  destruct (@hardened_create_user_refines_v1 cfg req
              (Sample.world_with Sample.one_user)
              (snd (Endpoints.create_user cfg req (Sample.world_with Sample.one_user)))
              (user_dict 2 (lit "Bob")) eq_refl eq_refl) as [w1 [H _]].
  exists w1. exact H.
Defined.

(** X24: the first variant's start-up has no lenient mode.  Its
    [create_app] returns the application, with the blueprint registered
    and the [users] table in place, exactly when the store file opens;
    otherwise the store's error leaves [create_app] and nothing
    changed. *)
Theorem v1_create_app_outcome (w : world) :
  match files w V1.DATABASE_PATH with
  | Some _ =>
      exists w' db t,
        V1.create_app w = (Ok (Flask None ["api"%string]), w')
        /\ files w' V1.DATABASE_PATH = Some db
        /\ find_table "users" db = Some t
  | None => V1.create_app w = (Err cannot_open, w)
  end.
Proof.
  unfold V1.create_app, V1.init_db.
  match goal with |- context [V1.get_db_connection ?b _] => set (body := b) end.
  destruct (files w V1.DATABASE_PATH) as [db|] eqn:Hf.
  - assert (Hb : body (Connection db None)
                 = (Fallthrough, Connection (create_users db) None, []))
      by reflexivity.
    destruct (@v1_get_db_connection_run pyval body w db _ _ _ Hf Hb)
      as [w' [-> [Hfiles _]]].
    cbn [V1.leave].
    destruct (create_users_table db) as [Hfind _].
    destruct (find_table "users" (create_users db)) as [t|] eqn:Ht; [|congruence].
    exists w', (create_users db), t. split; [reflexivity|].
    split; [|exact Ht]. rewrite Hfiles. reflexivity.
  - unfold V1.get_db_connection, connect. rewrite Hf. reflexivity.
Qed.





End Variants.

(* ================================================================== *)
(** ** The prototype's tracker next to the hardened one *)
(* ================================================================== *)

Section PrototypeTracker.

Lemma set_active_deref (id : Z) (h : heap) :
  h <> [] ->
  deref (Prototype.set_active id h) Prototype.active_users =
    let a1 := deref h Prototype.active_users ++ [id] in
    if (5 <? List.length a1)%nat then tl a1 else a1.
Proof.
  intros Hh. assert (L : (Prototype.active_users < List.length h)%nat).
  { destruct h; [congruence | simpl; unfold Prototype.active_users; lia]. }
  unfold Prototype.set_active, list_pop0, list_append. cbv zeta.
  set (h1 := assign h Prototype.active_users (deref h Prototype.active_users ++ [id])).
  assert (E : deref h1 Prototype.active_users = deref h Prototype.active_users ++ [id])
    by (unfold h1; now rewrite deref_assign_same).
  rewrite E. destruct (5 <? _)%nat; [|exact E].
  apply deref_assign_same. unfold h1. now rewrite length_assign.
Qed.

Lemma length_set_active (id : Z) (h : heap) :
  List.length (Prototype.set_active id h) = List.length h.
Proof.
  unfold Prototype.set_active, list_pop0, list_append.
  destruct (_ <? _)%nat; now rewrite ?length_assign.
Qed.

Lemma set_active_all_nonempty (ids : list Z) :
  Prototype.set_active_all ids initial_heap <> [].
Proof.
  assert (L : forall h, List.length (Prototype.set_active_all ids h) = List.length h).
  { induction ids as [|id ids IH]; intros h; [reflexivity|].
    unfold Prototype.set_active_all in *. simpl. now rewrite IH, length_set_active. }
  intros E. apply (f_equal (@List.length _)) in E. rewrite L in E. discriminate.
Qed.

Lemma set_active_keeps_last_five_aux (ids : list Z) :
  deref (Prototype.set_active_all ids initial_heap) Prototype.active_users
    = lastn 5 ids.
Proof.
  induction ids as [|x ids IH] using rev_ind; [reflexivity|].
  unfold Prototype.set_active_all in *. rewrite fold_left_app. cbn [fold_left].
  rewrite set_active_deref by apply set_active_all_nonempty.
  cbv zeta. rewrite IH. symmetry. apply lastn_push.
Qed.

(** X25: the prototype's tracker keeps the last five calls.  After any
    sequence of [set_active] calls from the empty list, run one after the
    other, [active_users] holds the ids of the last five calls in call
    order, repeated ids included, so never more than five. *)
Theorem set_active_keeps_last_five (ids : list Z) :
  deref (Prototype.set_active_all ids initial_heap) Prototype.active_users
    = skipn (List.length ids - 5) ids
  /\ (List.length (deref (Prototype.set_active_all ids initial_heap)
                     Prototype.active_users) <= 5)%nat.
Proof.
  rewrite set_active_keeps_last_five_aux. split; [reflexivity|].
  rewrite length_lastn. lia.
Qed.

(** X26: on pairwise distinct ids the prototype's tracker and the
    hardened one hold the same list; they part only when an id
    repeats. *)
Theorem trackers_agree_on_distinct_ids (ids : list Z) :
  NoDup ids ->
  deref (Prototype.set_active_all ids initial_heap) Prototype.active_users
    = deref (mark_all ids initial_heap) _active_users.
Proof.
  intros Hnd. rewrite set_active_keeps_last_five_aux.
  destruct (mark_all_invariant ids) as [_ [_ [_ Ha]]]. cbv zeta in Ha.
  now rewrite Ha, (insert_log_distinct Hnd).
Qed.

Lemma trackers_agree_on_distinct_ids_witness :
  deref (Prototype.set_active_all [1; 2; 3; 4; 5; 6]%Z initial_heap)
        Prototype.active_users
    = deref (mark_all [1; 2; 3; 4; 5; 6]%Z initial_heap) _active_users.
Proof.
  apply trackers_agree_on_distinct_ids.
  repeat (constructor; [vm_compute; intuition discriminate|]). constructor.
Defined.

End PrototypeTracker.
